(** * Equation-region detector of doc-ai-pipeline

    A shallow embedding of [src/parsers/equation_detector.py]: the
    geometric filter [_is_equation_like], the finalisation loop of
    [detect_equations_in_image] (ordering, margin, clipping, cropping,
    persistence, recognition) and the loading wrapper
    [detect_equations_from_pdf_page_image].

    - Python integers are [Z].
    - Python floats are IEEE-754 binary64 values, computed with the
      standard library's [SpecFloat] at precision 53: the constants
      [0.95], [0.2], [10], [1e-6], [0.03], [0.05] are the doubles
      nearest to the decimal literals, products and sums are rounded to
      nearest-even, [int > float] is the exact comparison CPython makes
      and [int(float)] truncates.
    - Exceptions are an explicit result type.  The ones the arithmetic
      can raise ([OverflowError] of [float(n)] and [int(inf)],
      [ZeroDivisionError] of [/], [ValueError] of [int(nan)]) are
      modelled and shown not to occur for sizes that are C ints.
    - The file system is an append-only log of the directories made and
      the images written.
    - The OpenCV and Tesseract calls are the fields of a record
      [External]; they are taken as total functions, and the [try]
      block as a function from the crop to the text or to the message
      of the exception caught.

    The development goes on to the command line of the detector and to
    the modules that assemble a document, [src/utils/unified_output.py],
    [src/parsers/table_extractor.py], [src/parsers/image_parser.py] and
    [extract_images] of [src/parsers/pdf_parser.py]: their dicts are
    association lists, and [pdfplumber] and [pandas] are the fields of
    a record [Library]. *)

From Stdlib Require Import ZArith List Bool Lia String Ascii.
From Stdlib Require Import Sorting.Sorted Permutation.
From Stdlib Require Import Floats.SpecFloat.
From Stdlib Require DecimalString.
From Stdlib Require DecimalNat.
From Stdlib Require DecimalZ DecimalPos.
Import ListNotations.
Local Open Scope Z_scope.

(* ================================================================== *)
(** ** Python values: exceptions, floats, slices, strings *)

Module Py.

Inductive exn : Type :=
| OverflowError
| ZeroDivisionError
| ValueError
| FileNotFoundError (msg : string).

Inductive Result (A : Type) : Type :=
| Ok (a : A)
| Raise (e : exn).
Arguments Ok {A} a.
Arguments Raise {A} e.

Definition bind {A B} (r : Result A) (k : A -> Result B) : Result B :=
  match r with
  | Ok a => k a
  | Raise e => Raise e
  end.

(** *** binary64 *)

Definition prec : Z := 53.
Definition emax : Z := 1024.
Definition float : Type := spec_float.

(** [float(n)]: correctly rounded; CPython raises [OverflowError] where
    the rounded value would be infinite. *)
Definition of_int (n : Z) : Result float :=
  match binary_normalize prec emax n 0 false with
  | S754_infinity _ => Raise OverflowError
  | f => Ok f
  end.

(** A decimal literal [num/den] denotes the double nearest to it, which
    is the correctly rounded quotient of the two (exact) integers. *)
Definition literal (num den : Z) : float :=
  SFdiv prec emax (binary_normalize prec emax num 0 false)
                  (binary_normalize prec emax den 0 false).

Definition c_0_95 : float := Eval vm_compute in literal 95 100.
Definition c_0_2  : float := Eval vm_compute in literal 2 10.
Definition c_10   : float := Eval vm_compute in literal 10 1.
Definition c_1e_6 : float := Eval vm_compute in literal 1 1000000.
Definition c_0_03 : float := Eval vm_compute in literal 3 100.
Definition c_0_05 : float := Eval vm_compute in literal 5 100.

(** [n * c], [n + c], [n / d] with an int on the left: the int is
    converted first, then the float operation runs. *)
Definition mul_int_float (n : Z) (c : float) : Result float :=
  bind (of_int n) (fun x => Ok (SFmul prec emax x c)).

Definition add_int_float (n : Z) (c : float) : Result float :=
  bind (of_int n) (fun x => Ok (SFadd prec emax x c)).

Definition is_zero (f : float) : bool :=
  match f with S754_zero _ => true | _ => false end.

Definition div_int_float (n : Z) (d : float) : Result float :=
  bind (of_int n) (fun x =>
    if is_zero d then Raise ZeroDivisionError
    else Ok (SFdiv prec emax x d)).

Definition float_lt (a b : float) : bool := SFltb a b.
Definition float_gt (a b : float) : bool := SFltb b a.

(** [n > f] for an int [n] and a float [f]: CPython compares the two
    numbers exactly.  A finite float is [±m * 2^e]; both sides are
    scaled by the same power of two. *)
Definition int_gt_float (n : Z) (f : float) : bool :=
  match f with
  | S754_nan => false
  | S754_infinity s => s
  | S754_zero _ => 0 <? n
  | S754_finite s m e =>
      let v := if s then Z.neg m else Z.pos m in
      v * 2 ^ Z.max e 0 <? n * 2 ^ Z.max (- e) 0
  end.

(** [int(f)]: truncation toward zero. *)
Definition int_of_float (f : float) : Result Z :=
  match f with
  | S754_nan => Raise ValueError
  | S754_infinity _ => Raise OverflowError
  | S754_zero _ => Ok 0
  | S754_finite s m e =>
      let v := if s then Z.neg m else Z.pos m in
      Ok (Z.quot (v * 2 ^ Z.max e 0) (2 ^ Z.max (- e) 0))
  end.

(** *** slices *)

(** One bound of [a[i:j]] on an axis of length [len]. *)
Definition slice_index (i len : Z) : Z :=
  if i <? 0 then Z.max 0 (i + len) else Z.min i len.

Definition slice {A} (i j : Z) (len : Z) (l : list A) : list A :=
  let a := slice_index i len in
  let b := slice_index j len in
  firstn (Z.to_nat (b - a)) (skipn (Z.to_nat a) l).

Definition slice_len (i j len : Z) : Z :=
  Z.max 0 (slice_index j len - slice_index i len).

(** *** strings *)

Definition is_space (c : ascii) : bool :=
  let n := nat_of_ascii c in
  ((9 <=? n) && (n <=? 13) || (28 <=? n) && (n <=? 32))%nat.

Fixpoint lstrip (s : string) : string :=
  match s with
  | String c s' => if is_space c then lstrip s' else s
  | EmptyString => EmptyString
  end.

Fixpoint rstrip (s : string) : string :=
  match s with
  | String c s' =>
      match rstrip s' with
      | EmptyString => if is_space c then EmptyString else String c EmptyString
      | t => String c t
      end
  | EmptyString => EmptyString
  end.

(** [s.strip()] *)
Definition strip (s : string) : string := rstrip (lstrip s).

(** [f"{n:03d}"] *)
Definition format_03d (n : nat) : string :=
  let s := DecimalString.NilZero.string_of_uint (Nat.to_uint n) in
  match String.length s with
  | 1%nat => "00" ++ s
  | 2%nat => "0" ++ s
  | _ => s
  end%string.

Fixpoint ends_with_slash (s : string) : bool :=
  match s with
  | EmptyString => false
  | String c EmptyString => Ascii.eqb c "/"%char
  | String _ s' => ends_with_slash s'
  end.

(** [os.path.join(a, p)] for a relative [p] *)
Definition path_join (a p : string) : string :=
  match a with
  | EmptyString => p
  | _ => if ends_with_slash a then a ++ p else a ++ "/" ++ p
  end%string.


(** *** rounding *)

(** After [j >= 1] right shifts of [m]: the quotient, the round bit and
    the sticky bit. *)
Definition shr_inv (m j : Z) (mrs : shr_record) : Prop :=
  exists t, 0 <= t < 2 ^ (j - 1) /\
    0 <= shr_m mrs /\
    m = 2 ^ j * shr_m mrs + (if shr_r mrs then 2 ^ (j - 1) else 0) + t /\
    shr_s mrs = negb (t =? 0).

End Py.
Import Py.

Notation "x <- c1 ;; c2" := (bind c1 (fun x => c2))
  (at level 61, c1 at next level, right associativity).

(* ================================================================== *)
(** ** The detector *)

Module Detector.

(** [cv2.boundingRect] returns the tuple [(x, y, w, h)]. *)
Definition Rect : Type := (Z * Z * Z * Z)%type.

(** *** Data *)

(** A numpy array holding an image: [shape0] rows, [shape1] columns,
    [channels = None] for a two-dimensional (grayscale) array and
    [Some c] for [shape = (rows, cols, c)]. *)
Record Image (Pixel : Type) : Type := mkImage {
  shape0 : Z;
  shape1 : Z;
  channels : option Z;
  pixels : list (list Pixel)
}.
Arguments mkImage {Pixel}.
Arguments shape0 {Pixel}.
Arguments shape1 {Pixel}.
Arguments channels {Pixel}.
Arguments pixels {Pixel}.

(** The dict appended to [candidates]; a key that is never set is
    [None]. *)
Record Entry (Pixel : Type) : Type := mkEntry {
  bbox : Rect;
  crop : Image Pixel;
  saved_path : option string;
  tesseract_text : option string;
  ocr_error : option string
}.
Arguments mkEntry {Pixel}.
Arguments bbox {Pixel}.
Arguments crop {Pixel}.
Arguments saved_path {Pixel}.
Arguments tesseract_text {Pixel}.
Arguments ocr_error {Pixel}.

(** What the call leaves on the file system, in order. *)
Inductive Event (Pixel : Type) : Type :=
| MakeDirs (path : string)
| ImWrite (path : string) (img : Image Pixel).
Arguments MakeDirs {Pixel}.
Arguments ImWrite {Pixel}.

(** *** External capabilities (OpenCV, Tesseract) *)

Record External (Pixel : Type) : Type := mkExternal {
  Contour : Type;
  (** [cv2.cvtColor(img, cv2.COLOR_BGR2GRAY)] *)
  cvtColor_BGR2GRAY : Image Pixel -> Image Pixel;
  (** [cv2.adaptiveThreshold(gray, maxValue, GAUSSIAN_C, BINARY_INV,
      blockSize, C)] *)
  adaptiveThreshold : Image Pixel -> Z -> Z -> Z -> Image Pixel;
  (** [cv2.morphologyEx(bin, MORPH_CLOSE, getStructuringElement(
      MORPH_RECT, (kx, ky)))] *)
  morphologyEx_close : Image Pixel -> Z -> Z -> Image Pixel;
  (** [cv2.findContours(mask, RETR_EXTERNAL, CHAIN_APPROX_SIMPLE)[0]] *)
  findContours : Image Pixel -> list Contour;
  boundingRect : Contour -> Rect;
  (** The body of the [try]: the crop is handed to PIL and Tesseract;
      [inl txt] is the text returned, [inr msg] is [str(e)] of the
      exception raised. *)
  image_to_string : Image Pixel -> string + string;
  (** [cv2.imread]: [None] when the file cannot be read or decoded. *)
  imread : string -> option (Image Pixel)
}.
Arguments mkExternal {Pixel}.
Arguments Contour {Pixel}.
Arguments cvtColor_BGR2GRAY {Pixel}.
Arguments adaptiveThreshold {Pixel}.
Arguments morphologyEx_close {Pixel}.
Arguments findContours {Pixel}.
Arguments boundingRect {Pixel}.
Arguments image_to_string {Pixel}.
Arguments imread {Pixel}.

Section CV.

Context {Pixel : Type} (cv : External Pixel).

Local Abbreviation Image := (Image Pixel).
Local Abbreviation Entry := (Entry Pixel).
Local Abbreviation Event := (Event Pixel).
Local Abbreviation Contour := (Contour cv).

(** State (the effect log) and exceptions. *)
Definition M (A : Type) : Type := list Event -> list Event * Result A.

Definition ret {A} (a : A) : M A := fun fs => (fs, Ok a).

Definition bindM {A B} (m : M A) (k : A -> M B) : M B :=
  fun fs =>
    match m fs with
    | (fs', Ok a) => k a fs'
    | (fs', Raise e) => (fs', Raise e)
    end.

Definition lift {A} (r : Result A) : M A := fun fs => (fs, r).

Definition emit (ev : Event) : M unit := fun fs => (fs ++ [ev], Ok tt).

Definition raise {A} (e : exn) : M A := fun fs => (fs, Raise e).

Notation "x <~ c1 ;; c2" := (bindM c1 (fun x => c2))
  (at level 61, c1 at next level, right associativity).

(** *** Stages 1 to 3 *)

Definition _to_gray (img : Image) : Image :=
  match channels img with
  | Some _ => cvtColor_BGR2GRAY cv img
  | None => img
  end.

Definition _binarize (gray : Image) : Image :=
  adaptiveThreshold cv gray 255 25 10.

Definition _morph_close (bin_img : Image) (kx ky : Z) : Image :=
  morphologyEx_close cv bin_img kx ky.

Definition _find_candidate_contours (mask : Image) : list Contour :=
  findContours cv mask.

(** *** The geometric filter *)

(** [a and b] on fallible operands: [b] runs only when [a] is true. *)
Definition and_then (a b : Result bool) : Result bool :=
  x <- a ;; if x then b else Ok false.

Definition too_small (w h : Z) : bool := w * h <? 400.

Definition full_page (w h img_w img_h : Z) : Result bool :=
  and_then (t <- mul_int_float img_w c_0_95 ;; Ok (int_gt_float w t))
           (t <- mul_int_float img_h c_0_95 ;; Ok (int_gt_float h t)).

Definition aspect_ratio (w h : Z) : Result float :=
  d <- add_int_float h c_1e_6 ;; div_int_float w d.

Definition bad_aspect (ar : float) : bool :=
  float_lt ar c_0_2 && float_gt ar c_10.

Definition too_thin (w h : Z) : bool := (h <? 10) || (w <? 10).

Definition _is_equation_like (contour : Contour) (img_shape : Z * Z)
  : Result bool :=
  let '(x, y, w, h) := boundingRect cv contour in
  let '(img_h, img_w) := img_shape in
  if too_small w h then Ok false else
  fp <- full_page w h img_w img_h ;;
  if fp then Ok false else
  ar <- aspect_ratio w h ;;
  if bad_aspect ar then Ok false else
  if too_thin w h then Ok false else
  Ok true.

(** The same filter with the [if ar < 0.2 and ar > 10] statement
    deleted; [ar] is still computed. *)
Definition _is_equation_like_no_branch (contour : Contour)
  (img_shape : Z * Z) : Result bool :=
  let '(x, y, w, h) := boundingRect cv contour in
  let '(img_h, img_w) := img_shape in
  if too_small w h then Ok false else
  fp <- full_page w h img_w img_h ;;
  if fp then Ok false else
  ar <- aspect_ratio w h ;;
  if too_thin w h then Ok false else
  Ok true.

(** The same filter with the whole aspect-ratio step deleted, the
    computation of [ar] included. *)
Definition _is_equation_like_no_aspect (contour : Contour)
  (img_shape : Z * Z) : Result bool :=
  let '(x, y, w, h) := boundingRect cv contour in
  let '(img_h, img_w) := img_shape in
  if too_small w h then Ok false else
  fp <- full_page w h img_w img_h ;;
  if fp then Ok false else
  if too_thin w h then Ok false else
  Ok true.

(** *** Ordering *)

(** [sorted(l, key=key)] is stable; a stable insertion sort computes
    the same list. *)
Fixpoint insert_by {A} (key : A -> Z) (a : A) (l : list A) : list A :=
  match l with
  | [] => [a]
  | b :: l' => if key a <=? key b then a :: l else b :: insert_by key a l'
  end.

Definition sorted {A} (key : A -> Z) (l : list A) : list A :=
  fold_right (insert_by key) [] l.

Definition reading_key (img : Image) (c : Contour) : Z :=
  let '(x, y, _, _) := boundingRect cv c in y * shape1 img + x.

(** *** Stage 5 *)

(** [img[y0:y1, x0:x1].copy()] *)
Definition crop_of (img : Image) (y0 y1 x0 x1 : Z) : Image :=
  {| shape0 := slice_len y0 y1 (shape0 img);
     shape1 := slice_len x0 x1 (shape1 img);
     channels := channels img;
     pixels := map (slice x0 x1 (shape1 img))
                   (slice y0 y1 (shape0 img) (pixels img)) |}.

(** [int(n * c)] *)
Definition margin (n : Z) (c : float) : Result Z :=
  t <- mul_int_float n c ;; int_of_float t.

(** The margin-expanded, clipped box [(x0, y0, x1, y1)] of a
    bounding rect. *)
Definition clip_box (img : Image) (r : Rect) : Result Rect :=
  let '(x, y, w, h) := r in
  margin_x <- margin w c_0_03 ;;
  margin_y <- margin h c_0_05 ;;
  let x0 := Z.max 0 (x - margin_x) in
  let y0 := Z.max 0 (y - margin_y) in
  let x1 := Z.min (shape1 img) (x + w + margin_x) in
  let y1 := Z.min (shape0 img) (y + h + margin_y) in
  Ok (x0, y0, x1, y1).

Definition with_saved_path (e : Entry) (p : string) : Entry :=
  {| bbox := bbox e; crop := crop e; saved_path := Some p;
     tesseract_text := tesseract_text e; ocr_error := ocr_error e |}.

Definition with_text (e : Entry) (t : string) : Entry :=
  {| bbox := bbox e; crop := crop e; saved_path := saved_path e;
     tesseract_text := Some t; ocr_error := ocr_error e |}.

Definition with_error (e : Entry) (msg : string) : Entry :=
  {| bbox := bbox e; crop := crop e; saved_path := saved_path e;
     tesseract_text := tesseract_text e; ocr_error := Some msg |}.

(** The body of the [if ocr:] block. *)
Definition recognize (entry : Entry) : Entry :=
  match image_to_string cv (crop entry) with
  | inl txt => with_text entry (strip txt)
  | inr msg => with_error (with_text entry EmptyString) msg
  end.

(** One accepted contour: the body of the loop after the filter. *)
Definition make_entry (img : Image) (save_crops : bool)
  (out_dir : string) (ocr : bool) (idx : nat) (c : Contour) : M Entry :=
  b <~ lift (clip_box img (boundingRect cv c)) ;;
  let '(x0, y0, x1, y1) := b in
  let crop := crop_of img y0 y1 x0 x1 in
  let entry := {| bbox := (x0, y0, x1 - x0, y1 - y0); crop := crop;
                  saved_path := None; tesseract_text := None;
                  ocr_error := None |} in
  entry <~ (if save_crops then
              let fname := ("eq_" ++ format_03d idx ++ ".png")%string in
              let path := path_join out_dir fname in
              _ <~ emit (ImWrite path crop) ;;
              ret (with_saved_path entry path)
            else ret entry) ;;
  ret (if ocr then recognize entry else entry).

(** The loop and the function around it, for a given filter; the
    detector runs them with [_is_equation_like]. *)
Section Loop.

Variable is_equation_like : Contour -> Z * Z -> Result bool.

(** [for idx, c in enumerate(contours): ...] *)
Fixpoint loop (img : Image) (save_crops : bool) (out_dir : string)
  (ocr : bool) (idx : nat) (contours : list Contour)
  (candidates : list Entry) : M (list Entry) :=
  match contours with
  | [] => ret candidates
  | c :: rest =>
      ok <~ lift (is_equation_like c (shape0 img, shape1 img)) ;;
      if negb ok then
        loop img save_crops out_dir ocr (S idx) rest candidates
      else
        entry <~ make_entry img save_crops out_dir ocr idx c ;;
        loop img save_crops out_dir ocr (S idx) rest
             (candidates ++ [entry])
  end.

Definition detect_with (img : Image) (save_crops : bool)
  (out_dir : string) (ocr : bool) : M (list Entry) :=
  _ <~ (if save_crops then emit (MakeDirs out_dir) else ret tt) ;;
  let gray := _to_gray img in
  let bin_img := _binarize gray in
  let closed := _morph_close bin_img 25 3 in
  let contours := _find_candidate_contours closed in
  let contours := sorted (reading_key img) contours in
  loop img save_crops out_dir ocr 0%nat contours [].

End Loop.

Definition detect_equations_in_image : Image -> bool -> string -> bool ->
                                       M (list Entry) :=
  detect_with _is_equation_like.

Definition detect_equations_from_pdf_page_image (page_image_path : string)
  (save_crops : bool) (out_dir : string) (ocr : bool) : M (list Entry) :=
  match imread cv page_image_path with
  | None =>
      raise (FileNotFoundError
               ("Could not load image: " ++ page_image_path)%string)
  | Some img => detect_equations_in_image img save_crops out_dir ocr
  end.

(** *** Notions the properties are stated with *)

(** A C [int] that is not negative: what OpenCV stores in a shape and
    in the size of a bounding rect. *)
Definition c_int (n : Z) : Prop := 0 <= n < 2 ^ 31.

Definition rect_size_ok (r : Rect) : Prop :=
  let '(_, _, w, h) := r in c_int w /\ c_int h.

(** The contours found in the image, before sorting. *)
Definition raw_contours (img : Image) : list Contour :=
  _find_candidate_contours (_morph_close (_binarize (_to_gray img)) 25 3).

(** The sizes the detector computes with are C ints. *)
Definition cv_contract (img : Image) : Prop :=
  c_int (shape0 img) /\ c_int (shape1 img) /\
  Forall (fun c => rect_size_ok (boundingRect cv c)) (raw_contours img).


Definition passes (img : Image) (c : Contour) : bool :=
  match _is_equation_like c (shape0 img, shape1 img) with
  | Ok b => b
  | Raise _ => false
  end.








End CV.




End Detector.

(* ================================================================== *)
(** ** Concrete pages *)

Module Example.
Import Detector.

(** A blank grayscale page of [h] rows and [w] columns. *)
Definition page (h w : Z) : Image Z :=
  mkImage h w None (repeat (repeat 255 (Z.to_nat w)) (Z.to_nat h)).

(** OpenCV and Tesseract on a page whose external contours have the
    bounding rects [rects], in the order [findContours] reports them;
    a contour is stood for by its bounding rect. *)
Definition cv_of (rects : list Rect) (ocr : Image Z -> string + string)
  (files : string -> option (Image Z)) : External Z :=
  mkExternal Rect (fun img => img) (fun img _ _ _ => img)
             (fun img _ _ => img) (fun _ => rects) (fun r => r) ocr files.

Definition reads_nothing : Image Z -> string + string :=
  fun _ => inl EmptyString.


Definition no_files : string -> option (Image Z) := fun _ => None.

(** One solid rectangle at [(20, 20, 60, 20)] on a 200 x 100 page. *)
Definition single_page : Image Z := page 100 200.
Definition single (ocr : Image Z -> string + string) : External Z :=
  cv_of [(20, 20, 60, 20)] ocr
        (fun p => if String.eqb p "page.png" then Some single_page else None).



End Example.

(* ================================================================== *)
(** ** Further notions: files written, crops, the command line *)

Module Trace.
Import Detector.

(** [int(s)] for a string of decimal digits. *)
Definition int_of_digits (s : string) : option nat :=
  option_map Nat.of_uint (DecimalString.NilEmpty.uint_of_string s).

(** The file the loop writes the crop of contour number [idx] to. *)
Definition crop_path (out_dir : string) (idx : nat) : string :=
  path_join out_dir ("eq_" ++ format_03d idx ++ ".png").

(** The paths of the images written, in order. *)
Definition written_paths {Pixel} (evs : list (Event Pixel)) : list string :=
  flat_map (fun ev => match ev with
                      | ImWrite p _ => [p]
                      | MakeDirs _ => []
                      end) evs.



(** The positions, among all the sorted contours, of the contours the
    filter accepts. *)
Definition accepted_indices {Pixel} (cv : External Pixel)
  (img : Image Pixel) : list nat :=
  let cs := sorted (reading_key cv img) (raw_contours cv img) in
  map fst (filter (fun p => passes cv img (snd p))
                  (combine (seq 0 (List.length cs)) cs)).


End Trace.

Module Cli.
Import Detector Trace.

(** [str(n)] of an int. *)
Definition str_int (z : Z) : string :=
  DecimalString.NilZero.string_of_int (Z.to_int z).

(** [str(t)] of a tuple of four ints. *)
Definition str_rect (r : Rect) : string :=
  let '(x, y, w, h) := r in
  ("(" ++ str_int x ++ ", " ++ str_int y ++ ", " ++ str_int w ++ ", "
       ++ str_int h ++ ")")%string.

Definition usage : string :=
  "Usage: python -m src.parsers.equation_detector <image_path>".

(** [f"Found {len(res)} candidate equation regions"] *)
Definition found (n : nat) : string :=
  ("Found " ++ str_int (Z.of_nat n) ++ " candidate equation regions")%string.

Section Main.

Context {Pixel : Type} (cv : External Pixel).

(** The first 160 characters of [tesseract_text], or of the empty
    string when the entry has none. *)
Definition preview (r : Entry Pixel) : string :=
  substring 0 160 (match tesseract_text r with
                   | Some t => t
                   | None => EmptyString
                   end).

(** What [print(i, r.get("bbox"), "->", ...)] writes, without the
    newline. *)
Definition region_line (i : nat) (r : Entry Pixel) : string :=
  (str_int (Z.of_nat i) ++ " " ++ str_rect (bbox r) ++ " " ++ "->" ++ " "
     ++ preview r)%string.

(** [for i, r in enumerate(res): print(...)], counting from [i]. *)
Fixpoint region_lines (i : nat) (res : list (Entry Pixel)) : list string :=
  match res with
  | [] => []
  | r :: res' => region_line i r :: region_lines (S i) res'
  end.

(** The body under [if __name__ == "__main__"], run on [sys.argv]; the
    state is the log of the file system and the lines printed so far. *)
Definition main (argv : list string) (fs : list (Event Pixel))
  (stdout : list string) : list (Event Pixel) * list string * Result unit :=
  match argv with
  | _ :: imgp :: _ =>
      match detect_equations_from_pdf_page_image
              cv imgp true "data/equation_crops" true fs with
      | (fs', Ok res) =>
          (fs', stdout ++ found (List.length res) :: region_lines 0 res, Ok tt)
      | (fs', Raise e) => (fs', stdout, Raise e)
      end
  | _ => (fs, stdout ++ [usage], Ok tt)
  end.

End Main.

End Cli.

Module Scene.
Import Detector Example.

(** The recognizer reads the same text on every crop. *)
Definition reads (text : string) : Image Z -> string + string :=
  fun _ => inl text.

(** Two lines of 60 x 20 pixels and a speck of 5 x 5 pixels right of
    the first line, on a 200 x 100 page. *)
Definition speck_page : Image Z := page 100 200.
Definition speck (ocr : Image Z -> string + string) : External Z :=
  cv_of [(20, 60, 60, 20); (100, 20, 5, 5); (20, 20, 60, 20)] ocr
        (fun p => if String.eqb p "page.png" then Some speck_page else None).

End Scene.

(* ================================================================== *)
(** ** The document builders and the PDF extractors

    [src/utils/unified_output.py], [src/parsers/table_extractor.py] and
    [src/parsers/image_parser.py] pass Python dicts around.  A dict is
    an association list in insertion order; its values are the Python
    values below.  Data frames, PIL images and arrays are objects these
    modules only store.  Parameters have the types of their
    annotations: [tables] and [images] are lists of dicts,
    [equations_img] is a list or [None].  [pdfplumber] and [pandas] are
    capabilities; opening one path twice gives the same pages. *)

Module Doc.

#[warnings="-register-all"]
Inductive Value : Type :=
| VNone
| VInt (n : Z)
| VStr (s : string)
| VList (l : list Value)
| VTuple (l : list Value)
| VDict (d : list (string * Value))
| VObject (id : nat).

Definition Dict : Type := list (string * Value).

Inductive exc : Type :=
| KeyError (key : string)
| ValueError (msg : string)
| RuntimeError (msg : string)
| LibraryError (msg : string).

Inductive Res (A : Type) : Type :=
| Val (a : A)
| Exc (e : exc).
Arguments Val {A}.
Arguments Exc {A}.

Definition bind {A B} (c : Res A) (f : A -> Res B) : Res B :=
  match c with
  | Val a => f a
  | Exc e => Exc e
  end.

Notation "'let*' x ':=' c1 'in' c2" := (bind c1 (fun x => c2))
  (at level 10, x name, c1 at level 100, c2 at level 200).

(** [d.get(k)] *)
Fixpoint get (d : Dict) (k : string) : option Value :=
  match d with
  | [] => None
  | (k', v) :: d' => if String.eqb k' k then Some v else get d' k
  end.

(** [d[k]] *)
Definition getitem (d : Dict) (k : string) : Res Value :=
  match get d k with
  | Some v => Val v
  | None => Exc (KeyError k)
  end.

(** [v == n] for an int [n]: none of the other values equals an int. *)
Definition eq_int (v : Value) (n : Z) : bool :=
  match v with
  | VInt m => m =? n
  | _ => false
  end.

(** [[elt(a) for a in l if cond(a)]] *)
Fixpoint comprehension {A B} (cond : A -> Res bool) (elt : A -> Res B)
  (l : list A) : Res (list B) :=
  match l with
  | [] => Val []
  | a :: l' =>
      let* b := cond a in
      if b then
        let* x := elt a in
        let* xs := comprehension cond elt l' in
        Val (x :: xs)
      else comprehension cond elt l'
  end.

(** *** [src/utils/unified_output.py] *)

(** [t["page"] == page_num] *)
Definition on_page (page_num : Z) (t : Dict) : Res bool :=
  let* p := getitem t "page" in
  Val (eq_int p page_num).

(** [{"table_index": t["table_index"], "data": t["data"]}] *)
Definition table_record (t : Dict) : Res Value :=
  let* i := getitem t "table_index" in
  let* d := getitem t "data" in
  Val (VDict [("table_index"%string, i); ("data"%string, d)]).

(** [equations_img if equations_img else []] *)
Definition or_empty (equations_img : option (list Value)) : list Value :=
  match equations_img with
  | Some (e :: l) => e :: l
  | Some [] => []
  | None => []
  end.

Definition image_record (equations_img : option (list Value)) (img : Dict)
  : Res Value :=
  let* b := getitem img "bbox" in
  Val (VDict [("bbox"%string, b);
              ("equations_in_image"%string, VList (or_empty equations_img))]).

Definition build_page_json (page_num : Z) (text : string)
  (tables images : list Dict) (equations_text : list Value)
  (equations_img : option (list Value)) : Res Value :=
  let* ts := comprehension (on_page page_num) table_record tables in
  let* ims := comprehension (on_page page_num) (image_record equations_img)
                            images in
  Val (VDict [("page"%string, VInt page_num);
              ("text"%string, VStr text);
              ("tables"%string, VList ts);
              ("images"%string, VList ims);
              ("equations"%string, VList equations_text)]).

Definition build_document_json (pages : list Value) : Value :=
  VDict [("total_pages"%string, VInt (Z.of_nat (List.length pages)));
         ("pages"%string, VList pages)].

(** [[t for t in tables if t["page"] == i]], as [src/main.py] selects
    the tables and the images of a page before it builds the page. *)
Definition of_page (i : Z) (l : list Dict) : Res (list Dict) :=
  comprehension (on_page i) Val l.

(** *** [pdfplumber] and [pandas] *)

Record Page : Type := mkPage {
  (** [page.extract_tables()] *)
  page_tables : list Value;
  (** [page.images] *)
  page_images : list Dict;
  (** [page.within_bbox(bbox).to_image(resolution=300).original] *)
  to_image : Value -> Res Value
}.

Record Library : Type := mkLibrary {
  (** [pdfplumber.open(pdf_path).pages] *)
  pdfplumber_open : string -> Res (list Page);
  pd_DataFrame : Value -> Value;
  (** [df.iloc[0].isnull().sum() == 0] *)
  first_row_complete : Value -> Res bool;
  (** [df.columns = df.iloc[0]; df = df[1:].reset_index(drop=True)] *)
  first_row_as_header : Value -> Value;
  np_array : Value -> Value
}.

Section Extractors.

Variable lib : Library.

(** *** [src/parsers/table_extractor.py] *)

Definition as_dataframe (table : Value) : Res Value :=
  let df := pd_DataFrame lib table in
  let* complete := first_row_complete lib df in
  Val (if complete then first_row_as_header lib df else df).

Definition table_entry (page_num idx : Z) (table df : Value) : Dict :=
  [("page"%string, VInt page_num); ("table_index"%string, VInt idx);
   ("data"%string, table); ("as_dataframe"%string, df)].

(** [for idx, table in enumerate(tables)], counting from [idx]. *)
Fixpoint tables_of_page (page_num idx : Z) (tables : list Value)
  : Res (list Dict) :=
  match tables with
  | [] => Val []
  | table :: rest =>
      let* df := as_dataframe table in
      let* more := tables_of_page page_num (idx + 1) rest in
      Val (table_entry page_num idx table df :: more)
  end.

(** [for page_num, page in enumerate(pages, start=1)], counting from
    [page_num]. *)
Fixpoint tables_of_pages (page_num : Z) (pages : list Page)
  : Res (list Dict) :=
  match pages with
  | [] => Val []
  | page :: rest =>
      let* here := tables_of_page page_num 0 (page_tables page) in
      let* more := tables_of_pages (page_num + 1) rest in
      Val (here ++ more)
  end.

Definition extract_tables (pdf_path : string) (max_pages : option Z)
  : Res (list Dict) :=
  let* pdf := pdfplumber_open lib pdf_path in
  let pages := match max_pages with
               | None => pdf
               | Some n => slice 0 n (Z.of_nat (List.length pdf)) pdf
               end in
  tables_of_pages 1 pages.

Definition no_table (page_number table_index : Z) : string :=
  ("No table found at page " ++ Cli.str_int page_number ++ ", table "
     ++ Cli.str_int table_index)%string.

Fixpoint first_table (page_number table_index : Z) (all_tables : list Dict)
  : Res Dict :=
  match all_tables with
  | [] => Exc (ValueError (no_table page_number table_index))
  | t :: rest =>
      let* p := getitem t "page" in
      if eq_int p page_number then
        let* i := getitem t "table_index" in
        if eq_int i table_index then Val t
        else first_table page_number table_index rest
      else first_table page_number table_index rest
  end.

Definition extract_single_table (pdf_path : string)
  (page_number table_index : Z) : Res Dict :=
  let* all_tables := extract_tables pdf_path None in
  first_table page_number table_index all_tables.

(** *** [src/parsers/image_parser.py] *)

Definition image_entry (page_num : Z) (bbox pil : Value) : Dict :=
  [("page"%string, VInt page_num); ("bbox"%string, bbox);
   ("image"%string, pil); ("numpy_array"%string, np_array lib pil)].

Fixpoint images_of_page (page_num : Z) (page : Page) (imgs : list Dict)
  : Res (list Dict) :=
  match imgs with
  | [] => Val []
  | img :: rest =>
      let* x0 := getitem img "x0" in
      let* y0 := getitem img "y0" in
      let* x1 := getitem img "x1" in
      let* y1 := getitem img "y1" in
      let* pil := to_image page (VTuple [x0; y0; x1; y1]) in
      let* more := images_of_page page_num page rest in
      Val (image_entry page_num (VTuple [x0; y0; x1; y1]) pil :: more)
  end.

Fixpoint images_of_pages (page_num : Z) (pages : list Page)
  : Res (list Dict) :=
  match pages with
  | [] => Val []
  | page :: rest =>
      let* here := images_of_page page_num page (page_images page) in
      let* more := images_of_pages (page_num + 1) rest in
      Val (here ++ more)
  end.

Definition extract_images (pdf_path : string) : Res (list Dict) :=
  let* pdf := pdfplumber_open lib pdf_path in
  images_of_pages 1 pdf.

End Extractors.

(** *** The pages of a document, as the properties speak of them *)

(** The page with the 1-based number [p]. *)
Definition page_at (pages : list Page) (p : Z) : option Page :=
  if 1 <=? p then nth_error pages (Z.to_nat (p - 1)) else None.

(** Table [i], counted from 0, of page [p], counted from 1. *)
Definition table_at (pages : list Page) (p i : Z) : option Value :=
  match page_at pages p with
  | Some page => if 0 <=? i then nth_error (page_tables page) (Z.to_nat i)
                 else None
  | None => None
  end.

(** [enumerate(l)], counting from [i]. *)
Fixpoint enumerate {A} (i : Z) (l : list A) : list (Z * A) :=
  match l with
  | [] => []
  | a :: l' => (i, a) :: enumerate (i + 1) l'
  end.

(** The tables of the pages, each with the number of its page, counted
    from [q], and its position on the page. *)
Definition numbered_tables (q : Z) (pages : list Page)
  : list (Z * (Z * Value)) :=
  flat_map (fun pp => map (fun it => (fst pp, it))
                          (enumerate 0 (page_tables (snd pp))))
           (enumerate q pages).

(** The table records of page [p] in the page's JSON. *)
Definition table_records (pages : list Page) (p : Z) : list Value :=
  match page_at pages p with
  | Some page =>
      map (fun it => VDict [("table_index"%string, VInt (fst it));
                            ("data"%string, snd it)])
          (enumerate 0 (page_tables page))
  | None => []
  end.

(** The images of page [p]. *)
Definition images_at (pages : list Page) (p : Z) : list Dict :=
  match page_at pages p with
  | Some page => page_images page
  | None => []
  end.

(** What the page's JSON holds for an image of the document. *)
Definition image_record_of (equations_img : option (list Value))
  (img : Dict) (r : Value) : Prop :=
  exists x0 y0 x1 y1,
    get img "x0" = Some x0 /\ get img "y0" = Some y0 /\
    get img "x1" = Some x1 /\ get img "y1" = Some y1 /\
    r = VDict [("bbox"%string, VTuple [x0; y0; x1; y1]);
               ("equations_in_image"%string, VList (or_empty equations_img))].

(** [d] has a page, and if that is page [page_num] it has the [keys]
    too. *)
Definition usable (page_num : Z) (keys : list string) (d : Dict) : Prop :=
  exists v, get d "page" = Some v /\
            (eq_int v page_num = true ->
             Forall (fun k => get d k <> None) keys).

End Doc.

Module Sample.
Import Doc.

Definition prices : Value :=
  VList [VList [VStr "item"; VStr "price"]; VList [VStr "tea"; VStr "3"]].
Definition totals : Value := VList [VList [VStr "total"; VStr "3"]].
Definition notes : Value := VList [VList [VStr "note"]; VList [VNone]].

Definition figure : Dict :=
  [("x0"%string, VInt 10); ("y0"%string, VInt 20);
   ("x1"%string, VInt 110); ("y1"%string, VInt 80)].

(** Two tables and a figure on the first page, one table on the
    second. *)
Definition first_page : Page :=
  mkPage [prices; totals] [figure] (fun _ => Val (VObject 1)).
Definition second_page : Page :=
  mkPage [notes] [] (fun _ => Val (VObject 2)).

(** A library that knows one file; its data frames are the rows, with
    the first row taken off when it becomes the header. *)
Definition lib : Library :=
  mkLibrary
    (fun path => if String.eqb path "report.pdf"
                 then Val [first_page; second_page]
                 else Exc (LibraryError "No such file"))
    (fun table => table)
    (fun df => match df with
               | VList (VList row :: _) =>
                   Val (forallb (fun c => match c with
                                          | VNone => false
                                          | _ => true
                                          end) row)
               | _ => Exc (LibraryError
                             "single positional indexer is out-of-bounds")
               end)
    (fun df => match df with
               | VList (_ :: rows) => VList rows
               | _ => df
               end)
    (fun pil => pil).

(** A table of page 2 without its data, and the tables of [lib]. *)
Definition bare : Dict := [("page"%string, VInt 2)].

End Sample.

(* ================================================================== *)
(** ** The raw images of a PDF

    [extract_images] of [src/parsers/pdf_parser.py]. *)

Module PdfParser.
Import Doc.

(** [str(e)] of the exception caught. *)
Definition str_exc (e : exc) : string :=
  match e with
  | KeyError key => ("'" ++ key ++ "'")%string
  | ValueError msg => msg
  | LibraryError msg => msg
  | RuntimeError msg => msg
  end.

(** [f"page{i}_img{img_idx}"] *)
Definition image_name (i img_idx : Z) : string :=
  ("page" ++ Cli.str_int i ++ "_img" ++ Cli.str_int img_idx)%string.

(** [d.get(k)] *)
Definition get_or_none (d : Dict) (k : string) : Value :=
  match get d k with
  | Some v => v
  | None => VNone
  end.

Definition image_entry (i img_idx : Z) (im : Dict) : Dict :=
  [("page"%string, VInt i);
   ("name"%string, VStr (image_name i img_idx));
   ("stream"%string, get_or_none im "stream");
   ("width"%string, get_or_none im "width");
   ("height"%string, get_or_none im "height");
   ("object"%string, VDict im)].

(** [for img_idx, im in enumerate(page.images, start=1)], counting
    from [img_idx]. *)
Fixpoint images_of_page (i img_idx : Z) (ims : list Dict) : list Dict :=
  match ims with
  | [] => []
  | im :: rest =>
      image_entry i img_idx im :: images_of_page i (img_idx + 1) rest
  end.

(** [for i, page in enumerate(pages, start=1)], counting from [i]. *)
Fixpoint images_of_pages (i : Z) (pages : list Page) : list Dict :=
  match pages with
  | [] => []
  | page :: rest =>
      images_of_page i 1 (page_images page) ++ images_of_pages (i + 1) rest
  end.

Definition failed (pdf_path : string) (e : exc) : exc :=
  RuntimeError ("Failed to extract images from " ++ pdf_path ++ ": "
                  ++ str_exc e).

Definition extract_images (lib : Library) (pdf_path : string)
  (max_pages : option Z) : Res (list Dict) :=
  match pdfplumber_open lib pdf_path with
  | Val pdf =>
      let pages := match max_pages with
                   | None => pdf
                   | Some n => slice 0 n (Z.of_nat (List.length pdf)) pdf
                   end in
      Val (images_of_pages 1 pages)
  | Exc e => Exc (failed pdf_path e)
  end.

End PdfParser.

Import Detector.

(* ================================================================== *)
(** ** Facts about binary64 arithmetic *)

(** [digits2_pos p] is the number of bits of [p]. *)
Lemma digits2_pos_bounds p :
  2 ^ (Z.pos (digits2_pos p) - 1) <= Z.pos p < 2 ^ Z.pos (digits2_pos p).
Proof.
  induction p as [p IH | p IH |]; cbn [digits2_pos].
  - rewrite Pos2Z.inj_succ. change (Z.pos p~1) with (2 * Z.pos p + 1).
    replace (Z.succ (Z.pos (digits2_pos p)) - 1) with (Z.succ (Z.pos (digits2_pos p) - 1)) by lia.
    rewrite !Z.pow_succ_r by lia.
    destruct IH as [A B]; split; lia.
  - rewrite Pos2Z.inj_succ. change (Z.pos p~0) with (2 * Z.pos p).
    replace (Z.succ (Z.pos (digits2_pos p)) - 1) with (Z.succ (Z.pos (digits2_pos p) - 1)) by lia.
    rewrite !Z.pow_succ_r by lia.
    destruct IH as [A B]; split; lia.
  - cbn. lia.
Qed.

Lemma digits2_pos_unique p d :
  2 ^ (d - 1) <= Z.pos p < 2 ^ d -> Z.pos (digits2_pos p) = d.
Proof.
  intros [Hlo Hhi].
  destruct (digits2_pos_bounds p) as [Blo Bhi].
  assert (0 < d).
  { destruct (Z_lt_le_dec 0 d) as [|Hd]; [assumption|].
    assert (2 ^ d <= 2 ^ 0) by (destruct (Z_lt_le_dec d 0); [rewrite Z.pow_neg_r by lia; cbn; lia | apply Z.pow_le_mono_r; lia]).
    cbn in *. lia. }
  destruct (Z.lt_trichotomy (Z.pos (digits2_pos p)) d) as [Hlt | [Heq | Hgt]]; [|assumption|].
  - assert (2 ^ Z.pos (digits2_pos p) <= 2 ^ (d - 1)) by (apply Z.pow_le_mono_r; lia). lia.
  - assert (2 ^ d <= 2 ^ (Z.pos (digits2_pos p) - 1)) by (apply Z.pow_le_mono_r; lia). lia.
Qed.

(** [iter_pos f p] applies [f] [p] times. *)
Lemma iter_pos_nat {A} (f : A -> A) p x :
  iter_pos f p x = Nat.iter (Pos.to_nat p) f x.
Proof.
  revert x; induction p as [p IH | p IH |]; intro x; cbn [iter_pos].
  - rewrite !IH, Pos2Nat.inj_xI.
    replace (S (2 * Pos.to_nat p)) with (Pos.to_nat p + (Pos.to_nat p + 1))%nat by lia.
    rewrite !Nat.iter_add. reflexivity.
  - rewrite !IH, Pos2Nat.inj_xO.
    replace (2 * Pos.to_nat p)%nat with (Pos.to_nat p + Pos.to_nat p)%nat by lia.
    rewrite Nat.iter_add. reflexivity.
  - reflexivity.
Qed.

(** One right shift: the bit shifted out becomes the round bit, the old
    round bit joins the sticky bit. *)
Lemma shr_1_spec m r s :
  0 <= m -> shr_1 (Build_shr_record m r s) =
            Build_shr_record (m / 2) (Z.odd m) (r || s).
Proof.
  intros Hm. destruct m as [|p|p]; [reflexivity| |lia].
  destruct p as [p|p|]; cbn [shr_1].
  - f_equal. change (Z.pos p~1) with (2 * Z.pos p + 1).
    rewrite Z.mul_comm, Z.div_add_l by lia. cbn. lia.
  - f_equal. change (Z.pos p~0) with (2 * Z.pos p).
    rewrite Z.mul_comm, Z.div_mul by lia. reflexivity.
  - reflexivity.
Qed.

Lemma shr_inv_first m :
  0 <= m -> shr_inv m 1 (shr_1 (Build_shr_record m false false)).
Proof.
  intros Hm. rewrite shr_1_spec by assumption.
  exists 0. cbn [shr_m shr_r shr_s]. change (2 ^ (1 - 1)) with 1. change (2 ^ 1) with 2.
  repeat split; try lia.
  - apply Z.div_pos; lia.
  - rewrite (Z.div_mod m 2) at 1 by lia. rewrite Zmod_odd. destruct (Z.odd m); lia.
Qed.

Lemma shr_inv_step m j mrs :
  1 <= j -> shr_inv m j mrs -> shr_inv m (j + 1) (shr_1 mrs).
Proof.
  intros Hj (t & Ht & Hq & Hm & Hs).
  destruct mrs as [q r s]; cbn [shr_m shr_r shr_s] in *.
  rewrite shr_1_spec by assumption.
  exists ((if r then 2 ^ (j - 1) else 0) + t).
  cbn [shr_m shr_r shr_s].
  replace (j + 1 - 1) with j by lia.
  assert (Hp : 2 ^ j = 2 * 2 ^ (j - 1)).
  { replace j with (Z.succ (j - 1)) at 1 by lia. apply Z.pow_succ_r; lia. }
  assert (Hp' : 2 ^ (j + 1) = 2 * 2 ^ j) by (apply Z.pow_succ_r; lia).
  assert (0 < 2 ^ (j - 1)) by (apply Z.pow_pos_nonneg; lia).
  repeat split.
  - destruct r; lia.
  - destruct r; lia.
  - apply Z.div_pos; lia.
  - rewrite Hm, Hp'. 
    rewrite (Z.div_mod q 2) at 1 by lia. rewrite Zmod_odd.
    destruct (Z.odd q), r; lia.
  - rewrite Hs. destruct r; cbn [orb].
    + destruct (Z.eqb_spec (2 ^ (j - 1) + t) 0); [lia|reflexivity].
    + reflexivity.
Qed.

Lemma shr_inv_iter m (Hm : 0 <= m) n :
  shr_inv m (Z.of_nat (S n)) (Nat.iter (S n) shr_1 (Build_shr_record m false false)).
Proof.
  induction n as [|n IH].
  - apply shr_inv_first; assumption.
  - replace (Z.of_nat (S (S n))) with (Z.of_nat (S n) + 1) by lia.
    change (Nat.iter (S (S n)) shr_1 ?x) with (shr_1 (Nat.iter (S n) shr_1 x)).
    apply shr_inv_step; [lia | exact IH].
Qed.

(** Rounding to nearest-even after [j] shifts moves the value by at most
    half a unit of the result. *)
Lemma round_nearest_even_inv m j mrs :
  1 <= j -> shr_inv m j mrs ->
  let m' := round_nearest_even (shr_m mrs) (loc_of_shr_record mrs) in
  shr_m mrs <= m' <= shr_m mrs + 1 /\ 2 * Z.abs (2 ^ j * m' - m) <= 2 ^ j.
Proof.
  intros Hj (t & Ht & Hq & Hm & Hs).
  destruct mrs as [q r s]; cbn [shr_m shr_r shr_s] in *.
  assert (Hp : 2 ^ j = 2 * 2 ^ (j - 1)).
  { replace j with (Z.succ (j - 1)) at 1 by lia. apply Z.pow_succ_r; lia. }
  destruct r, s; cbn [loc_of_shr_record round_nearest_even];
    try destruct (Z.even q);
    (destruct (Z.eqb_spec t 0); cbn in Hs; try discriminate); split; lia.
Qed.

Lemma pow2_split a b : 0 <= a -> 0 <= b -> 2 ^ (a + b) = 2 ^ a * 2 ^ b.
Proof. intros; apply Z.pow_add_r; assumption. Qed.

(** The second normalisation step of [binary_round_aux]: a mantissa of
    53 bits is kept, [2^53] becomes [2^52] one exponent higher. *)
Lemma shr_fexp_normal (m' : Z) e' :
  2 ^ 52 <= m' <= 2 ^ 53 -> -1074 <= e' ->
  exists m e, shr_fexp prec emax m' e' loc_Exact =
                (Build_shr_record (Z.pos m) false false, e) /\
              e' <= e <= e' + 1 /\ Z.pos m * 2 ^ (e - e') = m'.
Proof.
  intros Hm He.
  destruct m' as [|p|p]; try (cbn in Hm; lia).
  unfold shr_fexp, fexp, emin, prec, emax, Zdigits2, shr_record_of_loc.
  destruct (Z.eq_dec (Z.pos p) (2 ^ 53)) as [E | NE].
  - assert (Hp : p = 9007199254740992%positive) by (apply Pos2Z.inj; exact E).
    subst p. clear E Hm.
    change (Z.pos (digits2_pos 9007199254740992)) with 54.
    replace (Z.max _ _ - e') with 1 by lia.
    exists (Z.to_pos (2 ^ 52)), (e' + 1). cbn [shr iter_pos shr_1].
    split; [reflexivity|]. split; [lia|].
    replace (e' + 1 - e') with 1 by lia. reflexivity.
  - assert (Hd : Z.pos (digits2_pos p) = 53) by (apply digits2_pos_unique; cbn; cbn in Hm; lia).
    rewrite Hd. replace (Z.max _ _ - e') with 0 by lia.
    exists p, e'. cbn [shr]. split; [reflexivity|]. split; [lia|].
    replace (e' - e') with 0 by lia. cbn [Z.pow]. lia.
Qed.

(** Rounding a mantissa of at least 53 bits, away from the ends of the
    exponent range: the result is finite, has the same sign, and is
    within half a unit in the last place of [mx * 2^ex]. *)
Lemma binary_round_aux_finite sx (mx : positive) ex :
  let d := Z.pos (digits2_pos mx) in
  53 <= d -> -1074 <= d + ex - 53 -> d + ex - 53 < 971 ->
  exists m e,
    binary_round_aux prec emax sx (Z.pos mx) ex loc_Exact = S754_finite sx m e /\
    ex + (d - 53) <= e /\
    2 * Z.abs (Z.pos m * 2 ^ (e - ex) - Z.pos mx) <= 2 ^ (d - 53).
Proof.
  intros d Hd Hlo Hhi.
  assert (Hfirst : exists m' , 
     shr_fexp prec emax (Z.pos mx) ex loc_Exact =
       (let mrs := fst (shr_fexp prec emax (Z.pos mx) ex loc_Exact) in mrs, ex + (d - 53)) /\
     m' = round_nearest_even (shr_m (fst (shr_fexp prec emax (Z.pos mx) ex loc_Exact)))
            (loc_of_shr_record (fst (shr_fexp prec emax (Z.pos mx) ex loc_Exact))) /\
     2 ^ 52 <= m' <= 2 ^ 53 /\
     2 * Z.abs (2 ^ (d - 53) * m' - Z.pos mx) <= 2 ^ (d - 53)).
  { unfold shr_fexp, fexp, emin, prec, emax, Zdigits2, shr_record_of_loc. fold d.
    replace (Z.max (d + ex - 53) (3 - 1024 - 53) - ex) with (d - 53) by lia.
    destruct (d - 53) as [|p|p] eqn:Hk; try lia.
    - cbn [shr fst shr_m loc_of_shr_record round_nearest_even].
      eexists; split; [f_equal; lia|]. split; [reflexivity|].
      destruct (digits2_pos_bounds mx) as [B1 B2]. fold d in B1, B2.
      replace d with 53 in B1, B2 by lia. change (53 - 1) with 52 in B1.
      change (2 ^ 0) with 1. lia.
    - cbn [shr fst]. rewrite iter_pos_nat.
      destruct (Pos2Nat.is_succ p) as [n Hn]. rewrite Hn.
      pose proof (shr_inv_iter (Z.pos mx) ltac:(lia) n) as Hinv.
      assert (Hj : Z.of_nat (S n) = Z.pos p) by (rewrite <- Hn; apply positive_nat_Z).
      rewrite Hj in Hinv.
      pose proof (round_nearest_even_inv (Z.pos mx) (Z.pos p) _ ltac:(lia) Hinv) as [Hq Herr].
      cbn zeta in Hq, Herr.
      destruct Hinv as (t & Ht & Hq0 & Hm & _).
      set (mrs := Nat.iter (S n) shr_1 _) in *.
      eexists; split; [reflexivity|]. split; [reflexivity|]. split; [|exact Herr].
      destruct (digits2_pos_bounds mx) as [B1 B2]. fold d in B1, B2.
      replace d with (Z.pos p + 53) in B1, B2 by lia.
      replace (Z.pos p + 53 - 1) with (Z.pos p + 52) in B1 by lia.
      rewrite pow2_split in B1, B2 by lia.
      assert (Hp : 2 ^ Z.pos p = 2 * 2 ^ (Z.pos p - 1)).
      { replace (Z.pos p) with (Z.succ (Z.pos p - 1)) at 1 by lia. apply Z.pow_succ_r; lia. }
      assert (0 < 2 ^ (Z.pos p - 1)) by (apply Z.pow_pos_nonneg; lia).
      assert (2 ^ 52 <= shr_m mrs < 2 ^ 53); [|lia].
      assert (Hrem : 0 <= (if shr_r mrs then 2 ^ (Z.pos p - 1) else 0) + t < 2 ^ Z.pos p)
        by (destruct (shr_r mrs); lia).
      split.
      + apply Z.lt_succ_r. apply Z.mul_lt_mono_pos_l with (2 ^ Z.pos p); [lia|]. lia.
      + apply Z.mul_lt_mono_pos_l with (2 ^ Z.pos p); [lia|]. lia. }
  destruct Hfirst as (m' & Hshr & Hm' & Hrange & Herr).
  destruct (shr_fexp_normal m' (ex + (d - 53)) Hrange ltac:(lia)) as (m & e & Hnorm & He & Hval).
  exists m, e.
  unfold binary_round_aux.
  rewrite Hshr. cbn zeta. rewrite <- Hm', Hnorm. cbn [shr_m].
  replace (e <=? emax - prec) with true by (symmetry; apply Z.leb_le; unfold emax, prec; lia).
  split; [reflexivity|]. split; [lia|].
  replace (e - ex) with ((d - 53) + (e - (ex + (d - 53)))) by lia.
  rewrite pow2_split by lia.
  replace (Z.pos m * (2 ^ (d - 53) * 2 ^ (e - (ex + (d - 53)))))
    with (2 ^ (d - 53) * (Z.pos m * 2 ^ (e - (ex + (d - 53))))) by ring.
  rewrite Hval. exact Herr.
Qed.

Lemma iter_xO_spec p k : Z.pos (Pos.iter xO p k) = Z.pos p * 2 ^ Z.pos k.
Proof.
  induction k as [|k IH] using Pos.peano_ind.
  - cbn [Pos.iter]. change (2 ^ 1) with 2. lia.
  - rewrite Pos.iter_succ, Pos2Z.inj_succ, Z.pow_succ_r by lia.
    change (Z.pos (Pos.iter xO p k)~0) with (2 * Z.pos (Pos.iter xO p k)).
    rewrite IH. ring.
Qed.

(** A mantissa of exactly 53 bits is not rounded. *)
Lemma binary_round_aux_exact sx (mx : positive) ex :
  Z.pos (digits2_pos mx) = 53 -> -1074 <= ex <= 971 ->
  binary_round_aux prec emax sx (Z.pos mx) ex loc_Exact = S754_finite sx mx ex.
Proof.
  intros Hd He.
  unfold binary_round_aux, shr_fexp, fexp, emin, prec, emax, Zdigits2, shr_record_of_loc.
  rewrite Hd. replace (Z.max _ _ - ex) with 0 by lia.
  cbn [shr shr_m loc_of_shr_record round_nearest_even].
  rewrite Hd. replace (Z.max _ _ - ex) with 0 by lia.
  cbn [shr shr_m].
  replace (ex <=? 1024 - 53) with true by (symmetry; apply Z.leb_le; lia).
  reflexivity.
Qed.

(** [float(n)] for a positive int below [2^52]: the mantissa is [n]
    shifted to 53 bits. *)
Lemma of_int_pos n :
  0 < n < 2 ^ 52 ->
  exists m d, of_int n = Ok (S754_finite false m (d - 53)) /\
              1 <= d <= 52 /\
              Z.pos m = n * 2 ^ (53 - d) /\
              Z.pos (digits2_pos m) = 53.
Proof.
  intros Hn. destruct n as [|p|p]; try lia.
  set (d := Z.pos (digits2_pos p)).
  destruct (digits2_pos_bounds p) as [B1 B2]. fold d in B1, B2.
  assert (Hd : 1 <= d <= 52).
  { split; [unfold d; lia|].
    destruct (Z_le_gt_dec d 52) as [|Hgt]; [assumption|].
    assert (2 ^ 52 <= 2 ^ (d - 1)) by (apply Z.pow_le_mono_r; lia). lia. }
  unfold of_int, binary_normalize, binary_round, shl_align, fexp, emin, prec, emax.
  fold d. replace (Z.max (d + 0 - 53) (3 - 1024 - 53) - 0) with (d - 53) by lia.
  destruct (d - 53) as [|k|k] eqn:Hk; try lia.
  assert (Hm : Z.pos (Pos.iter xO p k) = Z.pos p * 2 ^ (53 - d)).
  { rewrite iter_xO_spec. f_equal. f_equal. lia. }
  assert (Hdig : Z.pos (digits2_pos (Pos.iter xO p k)) = 53).
  { apply digits2_pos_unique. rewrite Hm.
    assert (E1 : 2 ^ 53 = 2 ^ d * 2 ^ (53 - d))
      by (rewrite <- pow2_split by lia; f_equal; lia).
    assert (E2 : 2 ^ (53 - 1) = 2 ^ (d - 1) * 2 ^ (53 - d))
      by (rewrite <- pow2_split by lia; f_equal; lia).
    rewrite E1, E2.
    assert (0 < 2 ^ (53 - d)) by (apply Z.pow_pos_nonneg; lia).
    split; [apply Z.mul_le_mono_nonneg_r | apply Z.mul_lt_mono_pos_r]; lia. }
  cbn iota beta.
  rewrite binary_round_aux_exact by (try assumption; lia).
  exists (Pos.iter xO p k), d. rewrite Hk.
  split; [|split; [exact Hd|split; assumption]].
  do 2 f_equal. change (Z.max (d + 0 - 53) (3 - 1024 - 53) = Z.neg k). lia.
Qed.

Lemma of_int_zero : of_int 0 = Ok (S754_zero false).
Proof. reflexivity. Qed.

(** The exact comparison [w > f] read on a common scale [2^N]. *)
Lemma int_gt_float_finite w m e N :
  0 <= N -> 0 <= e + N ->
  int_gt_float w (S754_finite false m e) = (Z.pos m * 2 ^ (e + N) <? w * 2 ^ N).
Proof.
  intros HN HeN. cbn [int_gt_float].
  destruct (Z_le_gt_dec 0 e) as [He | He].
  - rewrite Z.max_l, Z.max_r by lia. change (2 ^ 0) with 1. rewrite Z.mul_1_r.
    rewrite pow2_split by lia.
    assert (0 < 2 ^ N) by (apply Z.pow_pos_nonneg; lia).
    destruct (Z.ltb_spec (Z.pos m * 2 ^ e) w), (Z.ltb_spec (Z.pos m * (2 ^ e * 2 ^ N)) (w * 2 ^ N)); try reflexivity; nia.
  - rewrite Z.max_r, Z.max_l by lia. change (2 ^ 0) with 1. rewrite Z.mul_1_r.
    replace N with ((- e) + (e + N)) at 2 by lia.
    rewrite (pow2_split (- e)) by lia.
    assert (0 < 2 ^ (e + N)) by (apply Z.pow_pos_nonneg; lia).
    destruct (Z.ltb_spec (Z.pos m) (w * 2 ^ (- e))), (Z.ltb_spec (Z.pos m * 2 ^ (e + N)) (w * (2 ^ (- e) * 2 ^ (e + N)))); try reflexivity; nia.
Qed.

(** [n * c] for a positive int [n] and a positive normal constant [c =
    mc * 2^ec]: the result is finite and positive, within half a unit
    in the last place of the exact product.  On the scale [2^(-ec) * S]
    the exact product is [n * S * mc]. *)
Lemma mul_int_float_pos n mc ec :
  0 < n < 2 ^ 52 -> Z.pos (digits2_pos mc) = 53 -> -900 <= ec <= -53 ->
  exists m e S K v,
    mul_int_float n (S754_finite false mc ec) = Ok (S754_finite false m e) /\
    0 < S /\ 0 < K /\
    (forall w, int_gt_float w (S754_finite false m e) =
               (K * v <? w * (S * 2 ^ (- ec)))) /\
    2 * Z.abs (K * v - n * S * Z.pos mc) <= K /\
    K * 2 ^ 52 <= n * S * Z.pos mc < K * 2 ^ 53 /\
    (K | 2 ^ 53).
Proof.
  intros Hn Hmc Hec.
  destruct (of_int_pos n Hn) as (mn & d & Hof & Hd & Hmn & Hdn).
  unfold mul_int_float. rewrite Hof. cbn [bind SFmul xorb].
  set (P := (mn * mc)%positive).
  set (dP := Z.pos (digits2_pos P)).
  destruct (digits2_pos_bounds mn) as [A1 A2]. rewrite Hdn in A1, A2.
  destruct (digits2_pos_bounds mc) as [C1 C2]. rewrite Hmc in C1, C2.
  change (53 - 1) with 52 in A1, C1.
  destruct (digits2_pos_bounds P) as [P1 P2]. fold dP in P1, P2.
  assert (HP : Z.pos P = Z.pos mn * Z.pos mc) by reflexivity.
  assert (HdP : 105 <= dP <= 106).
  { split.
    - destruct (Z_le_gt_dec 105 dP) as [|Hgt]; [assumption|].
      assert (2 ^ dP <= 2 ^ 104) by (apply Z.pow_le_mono_r; unfold dP; lia).
      assert (2 ^ 104 <= Z.pos mn * Z.pos mc).
      { change (2 ^ 104) with (2 ^ 52 * 2 ^ 52). apply Z.mul_le_mono_nonneg; lia. }
      lia.
    - destruct (Z_le_gt_dec dP 106) as [|Hgt]; [assumption|].
      assert (2 ^ 106 <= 2 ^ (dP - 1)) by (apply Z.pow_le_mono_r; lia).
      assert (Z.pos mn * Z.pos mc < 2 ^ 106).
      { change (2 ^ 106) with (2 ^ 53 * 2 ^ 53). apply Z.mul_lt_mono_nonneg; lia. }
      lia. }
  destruct (binary_round_aux_finite false P (d - 53 + ec)) as (m & e & Hres & He & Herr);
    fold dP; try lia.
  fold dP in He, Herr.
  set (E0 := d - 53 + ec) in *.
  exists m, e, (2 ^ (53 - d)), (2 ^ (dP - 53)), (Z.pos m * 2 ^ (e - E0 - (dP - 53))).
  assert (HV : 2 ^ (dP - 53) * (Z.pos m * 2 ^ (e - E0 - (dP - 53))) = Z.pos m * 2 ^ (e - E0)).
  { replace (e - E0) with ((dP - 53) + (e - E0 - (dP - 53))) at 2 by lia.
    rewrite pow2_split by lia. ring. }
  split; [rewrite Hres; reflexivity|].
  split; [apply Z.pow_pos_nonneg; lia|].
  split; [apply Z.pow_pos_nonneg; lia|].
  split; [|split; [|split]].
  4:{ exists (2 ^ (53 - (dP - 53))). rewrite <- pow2_split by lia. f_equal. lia. }
  - intros w. rewrite (int_gt_float_finite w m e (- E0)) by lia.
    rewrite HV. replace (e + - E0) with (e - E0) by lia.
    assert (HE : 2 ^ (- E0) = 2 ^ (53 - d) * 2 ^ (- ec))
      by (rewrite <- pow2_split by lia; f_equal; unfold E0; lia).
    rewrite HE. reflexivity.
  - rewrite HV. rewrite <- Hmn, <- HP. exact Herr.
  - rewrite <- Hmn, <- HP.
    assert (E1 : 2 ^ (dP - 1) = 2 ^ (dP - 53) * 2 ^ 52)
      by (rewrite <- pow2_split by lia; f_equal; lia).
    assert (E2 : 2 ^ dP = 2 ^ (dP - 53) * 2 ^ 53)
      by (rewrite <- pow2_split by lia; f_equal; lia).
    rewrite E1 in P1. rewrite E2 in P2. lia.
Qed.

(** [w > n * 0.95] decides [20 * w > 19 * n]: the rounding of the
    constant and of the product never crosses an integer. *)
Lemma gt_95_percent n :
  0 <= n < 2 ^ 31 ->
  exists t, mul_int_float n c_0_95 = Ok t /\
            forall w, int_gt_float w t = (19 * n <? 20 * w).
Proof.
  intros Hn.
  destruct (Z.eq_dec n 0) as [-> | Hn0].
  { exists (S754_zero false); split; [reflexivity|]. intros w. cbn [int_gt_float].
    destruct (Z.ltb_spec 0 w), (Z.ltb_spec (19 * 0) (20 * w)); try reflexivity; lia. }
  assert (Hn' : 0 < n < 2 ^ 52)
    by (change (2 ^ 52) with 4503599627370496;
        change (2 ^ 31) with 2147483648 in Hn; lia).
  destruct (mul_int_float_pos n 8556839292003942 (-53) Hn' eq_refl ltac:(lia))
    as (m & e & S & K & v & Hmul & HS & HK & Hgt & Herr & Hb & Hdiv).
  exists (S754_finite false m e). split; [exact Hmul|].
  intros w. rewrite Hgt. clear Hgt Hmul.
  change (- -53) with 53.
  destruct Hdiv as [u Hu]. rewrite Z.mul_comm in Hu.
  change (2 ^ 53) with 9007199254740992 in *.
  change (2 ^ 52) with 4503599627370496 in *.
  change (2 ^ 31) with 2147483648 in *.
  change (Z.pos 8556839292003942) with 8556839292003942 in *.
  assert (HA : 0 < n * S < 2147483648 * S) by nia.
  set (A := n * S) in *.
  replace (w * (S * 9007199254740992)) with ((w * S) * 9007199254740992) by ring.
  destruct (Z.ltb_spec (19 * n) (20 * w)) as [Hlt | Hge].
  - assert (HB : 19 * A + S <= 20 * (w * S)) by (unfold A; nia).
    set (B := w * S) in *. apply Z.ltb_lt.
    set (X := K * v) in *. lia.
  - apply Z.ltb_ge.
    destruct (Z.eq_dec (20 * w) (19 * n)) as [Heq | Hne].
    + assert (HB : 20 * (w * S) = 19 * A) by (unfold A; nia).
      assert (HT : w * S * 9007199254740992 = K * (w * S * u)) by (rewrite Hu; ring).
      rewrite HT. set (t' := w * S * u) in *. set (B := w * S) in *.
      apply Z.mul_le_mono_nonneg_l; [lia|].
      assert (Hpos : 0 < K * (v - t' + 1)).
      { replace (K * (v - t' + 1)) with (K * v - K * t' + K) by ring.
        rewrite <- HT. set (X := K * v) in *. lia. }
      apply Z.mul_pos_cancel_l in Hpos; lia.
    + assert (HB : 20 * (w * S) + S <= 19 * A) by (unfold A; nia).
      set (B := w * S) in *. set (X := K * v) in *. lia.
Qed.

Lemma digits2_pos_ge p k : 2 ^ (k - 1) <= Z.pos p -> k <= Z.pos (digits2_pos p).
Proof.
  intros H. destruct (digits2_pos_bounds p) as [_ B].
  destruct (Z_le_gt_dec k (Z.pos (digits2_pos p))) as [|Hgt]; [assumption|].
  assert (2 ^ Z.pos (digits2_pos p) <= 2 ^ (k - 1)) by (apply Z.pow_le_mono_r; lia).
  lia.
Qed.

Lemma digits2_pos_le p k : 0 <= k -> Z.pos p < 2 ^ k -> Z.pos (digits2_pos p) <= k.
Proof.
  intros Hk H. destruct (digits2_pos_bounds p) as [B _].
  destruct (Z_le_gt_dec (Z.pos (digits2_pos p)) k) as [|Hgt]; [assumption|].
  assert (2 ^ k <= 2 ^ (Z.pos (digits2_pos p) - 1)) by (apply Z.pow_le_mono_r; lia).
  lia.
Qed.

Lemma of_int_ok n : 0 <= n < 2 ^ 52 -> exists f, of_int n = Ok f.
Proof.
  intros Hn. destruct (Z.eq_dec n 0) as [-> | Hn0].
  - eexists; reflexivity.
  - destruct (of_int_pos n ltac:(lia)) as (m & d & H & _). eexists; exact H.
Qed.


(** [h + 1e-6] is a positive finite float for every int [h >= 0] below
    [2^52]: the divisor of the aspect ratio is never zero. *)
Lemma add_1e_6_not_zero h :
  0 <= h < 2 ^ 52 ->
  exists d, add_int_float h c_1e_6 = Ok d /\ is_zero d = false.
Proof.
  intros Hh. destruct (Z.eq_dec h 0) as [-> | Hh0].
  - eexists; split; reflexivity.
  - destruct (of_int_pos h ltac:(lia)) as (mh & d & Hof & Hd & Hmh & Hdh).
    unfold add_int_float. rewrite Hof. cbn [bind].
    unfold c_1e_6, SFadd.
    rewrite Z.min_r by lia.
    unfold shl_align.
    replace (-72 - (d - 53)) with (Z.neg (Z.to_pos (d + 19))) by lia.
    change (-72 - -72) with 0. cbn [fst cond_Zopp].
    set (a := Pos.iter xO mh (Z.to_pos (d + 19))).
    change (Z.pos a + Z.pos 4722366482869645) with (Z.pos (a + 4722366482869645)).
    set (s := (a + 4722366482869645)%positive).
    assert (Ha : Z.pos a = Z.pos mh * 2 ^ (d + 19)).
    { unfold a. rewrite iter_xO_spec. f_equal. f_equal. lia. }
    destruct (digits2_pos_bounds mh) as [M1 M2]. rewrite Hdh in M1, M2.
    change (53 - 1) with 52 in M1.
    assert (Hp1 : 2 ^ 20 <= 2 ^ (d + 19) <= 2 ^ 71)
      by (split; apply Z.pow_le_mono_r; lia).
    assert (Hs : 2 ^ 72 <= Z.pos s < 2 ^ 125).
    { unfold s. rewrite Pos2Z.inj_add, Ha.
      change (2 ^ 72) with (2 ^ 52 * 2 ^ 20).
      change (2 ^ 125) with (2 * (2 ^ 53 * 2 ^ 71)).
      assert (2 ^ 52 * 2 ^ 20 <= Z.pos mh * 2 ^ (d + 19))
        by (apply Z.mul_le_mono_nonneg; lia).
      assert (Z.pos mh * 2 ^ (d + 19) <= 2 ^ 53 * 2 ^ 71)
        by (apply Z.mul_le_mono_nonneg; lia).
      change (2 ^ 53 * 2 ^ 71) with 21267647932558653966460912964485513216 in *.
      lia. }
    assert (Hds : 73 <= Z.pos (digits2_pos s) <= 125).
    { split; [apply digits2_pos_ge | apply digits2_pos_le]; 
        change (73 - 1) with 72; lia. }
    unfold binary_normalize, binary_round, shl_align, fexp, emin, prec, emax.
    set (ds := Z.pos (digits2_pos s)) in *.
    replace (Z.max (ds + -72 - 53) (3 - 1024 - 53) - -72) with (Z.pos (Z.to_pos (ds - 53))) by lia.
    cbn iota beta.
    destruct (binary_round_aux_finite false s (-72)) as (m & e & Hres & _); fold ds; try lia.
    unfold prec, emax in Hres. rewrite Hres. eexists; split; reflexivity.
Qed.

Lemma aspect_ratio_ok w h :
  0 <= w < 2 ^ 52 -> 0 <= h < 2 ^ 52 ->
  exists ar, aspect_ratio w h = Ok ar.
Proof.
  intros Hw Hh. unfold aspect_ratio.
  destruct (add_1e_6_not_zero h Hh) as (d & Hadd & Hz). rewrite Hadd. cbn [bind].
  unfold div_int_float. destruct (of_int_ok w Hw) as (f & Hf). rewrite Hf. cbn [bind].
  rewrite Hz. eexists; reflexivity.
Qed.

(** No float is both below 0.2 and above 10. *)
Lemma bad_aspect_false ar : bad_aspect ar = false.
Proof.
  unfold bad_aspect, float_lt, float_gt, SFltb, c_0_2, c_10.
  destruct ar as [s | s | | s m e]; cbn [SFcompare]; try reflexivity.
  - destruct s; reflexivity.
  - destruct s; cbv iota beta; [reflexivity|].
    change (IntDef.Z.compare e (-55)) with (e ?= -55).
    change (IntDef.Z.compare (-49) e) with (-49 ?= e).
    destruct (Z.compare_spec e (-55)) as [H2 | H2 | H2]; cbv iota beta;
      try reflexivity;
      destruct (Z.compare_spec (-49) e) as [H1 | H1 | H1]; cbv iota beta;
      try apply andb_false_r; lia.
Qed.

(* ================================================================== *)
(** ** Facts about the detector *)

Section Facts.

Context {Pixel : Type} (cv : External Pixel).

(** *** The filter *)

Lemma full_page_spec w h W H :
  c_int W -> c_int H ->
  full_page w h W H = Ok ((19 * W <? 20 * w) && (19 * H <? 20 * h)).
Proof.
  intros HW HH. unfold full_page, and_then.
  destruct (gt_95_percent W HW) as (t & Ht & Hgt).
  rewrite Ht. cbn [bind]. rewrite Hgt.
  destruct (19 * W <? 20 * w); cbn [andb]; [|reflexivity].
  destruct (gt_95_percent H HH) as (t' & Ht' & Hgt').
  rewrite Ht'. cbn [bind]. rewrite Hgt'. reflexivity.
Qed.

Lemma c_int_below_2_52 n : c_int n -> 0 <= n < 2 ^ 52.
Proof.
  unfold c_int. change (2 ^ 31) with 2147483648.
  change (2 ^ 52) with 4503599627370496. lia.
Qed.

(** The filter on C-int sizes, in integer arithmetic. *)
Lemma is_equation_like_spec c x y w h H W :
  boundingRect cv c = (x, y, w, h) ->
  c_int W -> c_int H -> c_int w -> c_int h ->
  _is_equation_like cv c (H, W) =
    Ok (negb (too_small w h)
        && negb ((19 * W <? 20 * w) && (19 * H <? 20 * h))
        && negb (too_thin w h)).
Proof.
  intros Hr HW HH Hw Hh. unfold _is_equation_like. rewrite Hr.
  destruct (too_small w h); [reflexivity|].
  rewrite (full_page_spec w h W H HW HH). cbn [bind negb andb].
  destruct ((19 * W <? 20 * w) && (19 * H <? 20 * h)); [reflexivity|].
  destruct (aspect_ratio_ok w h (c_int_below_2_52 w Hw) (c_int_below_2_52 h Hh))
    as (ar & Har).
  rewrite Har. cbn [bind negb andb]. rewrite bad_aspect_false.
  destruct (too_thin w h); reflexivity.
Qed.

Lemma no_branch_same c shape :
  _is_equation_like cv c shape = _is_equation_like_no_branch cv c shape.
Proof.
  unfold _is_equation_like, _is_equation_like_no_branch.
  destruct (boundingRect cv c) as [[[x y] w] h]. destruct shape as [H W].
  destruct (too_small w h); [reflexivity|].
  destruct (full_page w h W H) as [[|]|e]; cbn [bind]; try reflexivity.
  destruct (aspect_ratio w h) as [ar|e]; cbn [bind]; [|reflexivity].
  rewrite bad_aspect_false. reflexivity.
Qed.

Lemma no_aspect_same c H W :
  rect_size_ok (boundingRect cv c) ->
  _is_equation_like cv c (H, W) = _is_equation_like_no_aspect cv c (H, W).
Proof.
  unfold rect_size_ok, _is_equation_like, _is_equation_like_no_aspect.
  destruct (boundingRect cv c) as [[[x y] w] h]. intros [Hw Hh].
  destruct (too_small w h); [reflexivity|].
  destruct (full_page w h W H) as [[|]|e]; cbn [bind]; try reflexivity.
  destruct (aspect_ratio_ok w h (c_int_below_2_52 w Hw) (c_int_below_2_52 h Hh))
    as (ar & Har).
  rewrite Har. cbn [bind]. rewrite bad_aspect_false. reflexivity.
Qed.

(** *** Margins and clipping *)



(** *** The loop *)






(** Two filters that agree on the contours give the same loop. *)
Lemma loop_ext (f g : Contour cv -> Z * Z -> Result bool)
  (img : Image Pixel) save out ocr cs :
  Forall (fun c => f c (shape0 img, shape1 img) = g c (shape0 img, shape1 img)) cs ->
  forall idx acc fs,
    loop cv f img save out ocr idx cs acc fs =
    loop cv g img save out ocr idx cs acc fs.
Proof.
  induction 1 as [|c cs Hc Hcs IH]; intros idx acc fs; [reflexivity|].
  cbn [loop]. unfold bindM at 1 3. rewrite Hc. unfold lift.
  destruct (g c (shape0 img, shape1 img)) as [b|e]; [|reflexivity].
  destruct (negb b); [apply IH|].
  unfold bindM.
  destruct (make_entry cv img save out ocr idx c fs) as [fs' [e|e]];
    [apply IH | reflexivity].
Qed.

(** *** Ordering *)

Lemma insert_by_perm {A} (key : A -> Z) a l :
  Permutation (insert_by key a l) (a :: l).
Proof.
  induction l as [|b l IH]; cbn [insert_by]; [reflexivity|].
  destruct (key a <=? key b); [reflexivity|].
  rewrite IH. apply perm_swap.
Qed.

Lemma sorted_perm {A} (key : A -> Z) l : Permutation (sorted key l) l.
Proof.
  induction l as [|a l IH]; cbn; [constructor|].
  rewrite insert_by_perm. constructor. exact IH.
Qed.





(** *** The whole call *)



End Facts.

(* ================================================================== *)
(** ** The regions returned *)

Section Regions.

Context {Pixel : Type} (cv : External Pixel).


Lemma Forall2_In_right {A B} (R : A -> B -> Prop) (P : B -> Prop) l l' :
  Forall2 R l l' ->
  (forall a b, In a l -> R a b -> P b) ->
  Forall P l'.
Proof.
  induction 1 as [|a b l l' Hab Hl IH]; intros HP; constructor.
  - apply (HP a); [left; reflexivity | assumption].
  - apply IH. intros a' b' Hin. apply HP. right; assumption.
Qed.









Lemma detect_with_ext (f g : Contour cv -> Z * Z -> Result bool)
  (img : Image Pixel) save out ocr fs :
  Forall (fun c => f c (shape0 img, shape1 img) = g c (shape0 img, shape1 img))
         (raw_contours cv img) ->
  detect_with cv f img save out ocr fs = detect_with cv g img save out ocr fs.
Proof.
  intros H. unfold detect_with, bindM.
  destruct ((if save then emit (MakeDirs out) else ret tt) fs) as [fs' [u|e]];
    [|reflexivity].
  cbv zeta. apply loop_ext.
  eapply Permutation_Forall; [symmetry; apply sorted_perm | exact H].
Qed.

End Regions.

(* ================================================================== *)
(** ** The claims *)

Section Claims.

Context {Pixel : Type} (cv : External Pixel).

(** C1. The condition [ar < 0.2 and ar > 10] holds for no float, so the
    aspect-ratio branch rejects no candidate: the detector returns what
    it returns with the [if] statement deleted, on every input, and,
    where the sizes are C ints, what it returns with the whole
    aspect-ratio step deleted. *)
Theorem C1_aspect_branch_rejects_nothing
  (img : Image Pixel) save out ocr fs :
  (forall ar, bad_aspect ar = false) /\
  detect_equations_in_image cv img save out ocr fs =
    detect_with cv (_is_equation_like_no_branch cv) img save out ocr fs /\
  (cv_contract cv img ->
   detect_equations_in_image cv img save out ocr fs =
     detect_with cv (_is_equation_like_no_aspect cv) img save out ocr fs).
Proof.
  split; [exact bad_aspect_false|]. split.
  - apply detect_with_ext. apply Forall_forall. intros c _.
    apply no_branch_same.
  - intros (_ & _ & H). apply detect_with_ext.
    eapply Forall_impl; [|exact H]. intros c Hc. apply no_aspect_same, Hc.
Qed.






(** C7. The full-page rule rejects a box exactly when its width exceeds
    95% of the image width and its height exceeds 95% of the image
    height: a box of 96% by 96% is rejected, a box of at most 90% of the
    width is not, whatever its height. *)
Theorem C7_full_page_rule (w h W H : Z) :
  c_int W -> c_int H ->
  exists b,
    full_page w h W H = Ok b /\
    (b = true <-> 95 * W < 100 * w /\ 95 * H < 100 * h) /\
    (0 < W -> 0 < H -> 96 * W <= 100 * w -> 96 * H <= 100 * h -> b = true) /\
    (100 * w <= 90 * W -> b = false) /\
    (forall c x y, boundingRect cv c = (x, y, w, h) -> b = true ->
                   _is_equation_like cv c (H, W) = Ok false).
Proof.
  intros HW HH. eexists. split; [apply full_page_spec; assumption|].
  unfold c_int in HW, HH.
  split; [|split; [|split]].
  - rewrite andb_true_iff, !Z.ltb_lt. lia.
  - intros. rewrite andb_true_iff, !Z.ltb_lt. lia.
  - intros. apply andb_false_iff. left. apply Z.ltb_ge. lia.
  - intros c x y Hr Hb. unfold _is_equation_like. rewrite Hr.
    destruct (too_small w h); [reflexivity|].
    rewrite (full_page_spec w h W H HW HH), Hb. reflexivity.
Qed.

(** C8. A candidate whose area is exactly 400 is not rejected by the
    area rule; a candidate whose area is below 400 is, and the filter
    returns [False] for it. *)
Theorem C8_area_rule (c : Contour cv) (shape : Z * Z) (x y w h : Z) :
  boundingRect cv c = (x, y, w, h) ->
  (w * h = 400 -> too_small w h = false) /\
  (w * h < 400 ->
   too_small w h = true /\ _is_equation_like cv c shape = Ok false).
Proof.
  intros Hr. unfold too_small. split.
  - intros ->. reflexivity.
  - intros Hlt. assert (Hs : (w * h <? 400) = true) by (apply Z.ltb_lt; assumption).
    split; [exact Hs|].
    unfold _is_equation_like, too_small. rewrite Hr. destruct shape as [H W].
    rewrite Hs. reflexivity.
Qed.

(** C9. When the image cannot be loaded the call raises
    [FileNotFoundError] at once, with no region and no effect; otherwise
    it is the detection on the loaded image. *)
Theorem C9_load_failure_raises (path : string) save out ocr fs :
  (imread cv path = None ->
   detect_equations_from_pdf_page_image cv path save out ocr fs =
     (fs, Raise (FileNotFoundError ("Could not load image: " ++ path)%string))) /\
  (forall img, imread cv path = Some img ->
   detect_equations_from_pdf_page_image cv path save out ocr fs =
     detect_equations_in_image cv img save out ocr fs).
Proof.
  unfold detect_equations_from_pdf_page_image.
  split; [intros -> | intros img ->]; reflexivity.
Qed.


End Claims.

(* ================================================================== *)
(** ** The claims on concrete pages *)

Import Example.

(** The constants are the doubles Python prints with [float.hex]:
    [0x1.e666666666666p-1], [0x1.999999999999ap-3], [0x1.4p+3],
    [0x1.0c6f7a0b5ed8dp-20], [0x1.eb851eb851eb8p-6],
    [0x1.999999999999ap-5]. *)
Example literals :
  c_0_95 = S754_finite false 0x1e666666666666 (-53) /\
  c_0_2 = S754_finite false 0x1999999999999a (-55) /\
  c_10 = S754_finite false 0x14000000000000 (-49) /\
  c_1e_6 = S754_finite false 0x10c6f7a0b5ed8d (-72) /\
  c_0_03 = S754_finite false 0x1eb851eb851eb8 (-58) /\
  c_0_05 = S754_finite false 0x1999999999999a (-57).
Proof. repeat split. Qed.

(** [60 * 0.03] is [1.7999999999999998] and [20 * 0.05] is [1.0]. *)
Example margins_of_60_by_20 :
  margin 60 c_0_03 = Ok 1 /\ margin 20 c_0_05 = Ok 1.
Proof. split; reflexivity. Qed.

(** A 200 x 100 page with one rectangle at [(20, 20, 60, 20)]: one
    region, one directory made, one file written. *)
Example single_rectangle :
  exists c,
    detect_equations_in_image (single reads_nothing) single_page
                              true "data/equation_crops" false [] =
    ([MakeDirs "data/equation_crops";
      ImWrite "data/equation_crops/eq_000.png" c],
     Ok [mkEntry (19, 19, 62, 22) c
                 (Some "data/equation_crops/eq_000.png"%string) None None]) /\
    shape0 c = 22 /\ shape1 c = 62.
Proof. eexists. split; [vm_compute; reflexivity | split; reflexivity]. Qed.

(** A page without contours: no region. *)
Example blank_page :
  detect_equations_in_image (cv_of [] reads_nothing no_files) single_page
                            false "out" true [] = ([], Ok []).
Proof. reflexivity. Qed.

(** The sort is stable: equal keys keep the order of the input. *)
Example sorted_is_stable :
  sorted fst [(2, 1); (1, 1); (2, 2); (1, 2); (0, 3)]
  = [(0, 3); (1, 1); (1, 2); (2, 1); (2, 2)].
Proof. reflexivity. Qed.

(** The size contract on a concrete page. *)
Ltac contract :=
  unfold cv_contract, raw_contours, rect_size_ok, c_int; cbn;
  repeat (split || constructor); lia.

Lemma C1_witness :
  detect_equations_in_image (single reads_nothing) single_page
                            false "out" false [] =
  detect_with (single reads_nothing)
              (_is_equation_like_no_aspect (single reads_nothing))
              single_page false "out" false [].
Proof.
  apply (proj2 (proj2 (C1_aspect_branch_rejects_nothing
                         (single reads_nothing) single_page
                         false "out"%string false []))).
  contract.
Defined.








Lemma C7_witness :
  exists b,
    full_page 192 96 200 100 = Ok b /\
    (b = true <-> 95 * 200 < 100 * 192 /\ 95 * 100 < 100 * 96) /\
    (0 < 200 -> 0 < 100 -> 96 * 200 <= 100 * 192 -> 96 * 100 <= 100 * 96 ->
     b = true) /\
    (100 * 192 <= 90 * 200 -> b = false) /\
    (forall c x y,
       boundingRect (single reads_nothing) c = (x, y, 192, 96) -> b = true ->
       _is_equation_like (single reads_nothing) c (100, 200) = Ok false).
Proof.
  apply (C7_full_page_rule (single reads_nothing) 192 96 200 100);
    unfold c_int; lia.
Defined.

Lemma C8_witness :
  too_small 20 20 = false /\
  (too_small 19 21 = true /\
   _is_equation_like (single reads_nothing) (0, 0, 19, 21) (100, 200)
     = Ok false).
Proof.
  split.
  - apply (proj1 (C8_area_rule (single reads_nothing) (0, 0, 20, 20)
                               (100, 200) 0 0 20 20 eq_refl)).
    reflexivity.
  - apply (proj2 (C8_area_rule (single reads_nothing) (0, 0, 19, 21)
                               (100, 200) 0 0 19 21 eq_refl)).
    lia.
Defined.

Lemma C9_witness :
  detect_equations_from_pdf_page_image (single reads_nothing) "missing.png"
                                       true "out" true [] =
    ([], Raise (FileNotFoundError "Could not load image: missing.png")) /\
  detect_equations_from_pdf_page_image (single reads_nothing) "page.png"
                                       true "out" true [] =
    detect_equations_in_image (single reads_nothing) single_page
                              true "out" true [].
Proof.
  split.
  - apply (proj1 (C9_load_failure_raises (single reads_nothing)
                    "missing.png"%string true "out"%string true [])).
    reflexivity.
  - apply (proj2 (C9_load_failure_raises (single reads_nothing)
                    "page.png"%string true "out"%string true [])).
    reflexivity.
Defined.


(* ================================================================== *)
(** ** More on binary64: the margins in integer arithmetic *)

(** [int(f)] of a positive finite float is the integer [q] with
    [q <= f < q + 1], read through the exact comparison. *)
Lemma int_of_float_bracket m e q :
  int_gt_float q (S754_finite false m e) = false ->
  int_gt_float (q + 1) (S754_finite false m e) = true ->
  int_of_float (S754_finite false m e) = Ok q.
Proof.
  cbn [int_gt_float int_of_float]. intros Hlo Hhi.
  apply Z.ltb_ge in Hlo. apply Z.ltb_lt in Hhi.
  assert (Hpos : 0 < 2 ^ Z.max (- e) 0) by (apply Z.pow_pos_nonneg; lia).
  assert (Hnum : 0 <= Z.pos m * 2 ^ Z.max e 0)
    by (apply Z.mul_nonneg_nonneg; [lia | apply Z.pow_nonneg; lia]).
  f_equal. rewrite Z.quot_div_nonneg by lia.
  symmetry. apply Z.div_unique with (Z.pos m * 2 ^ Z.max e 0 - q * 2 ^ Z.max (- e) 0).
  - left. lia.
  - ring.
Qed.

(** [int(n * 0.03)] is the integer quotient [3 * n / 100]. *)
Lemma margin_0_03_exact n : c_int n -> margin n c_0_03 = Ok (3 * n / 100).
Proof.
  intros Hn. unfold c_int in Hn.
  destruct (Z.eq_dec n 0) as [-> | Hn0]; [reflexivity|].
  assert (Hn' : 0 < n < 2 ^ 52)
    by (change (2 ^ 52) with 4503599627370496; lia).
  destruct (mul_int_float_pos n 8646911284551352 (-58) Hn' eq_refl ltac:(lia))
    as (m & e & S & K & v & Hmul & HS & HK & Hgt & Herr & Hb & Hdiv).
  unfold margin, c_0_03. rewrite Hmul. cbn [bind].
  change (- -58) with 58 in Hgt.
  destruct Hdiv as [u Hu]. rewrite Z.mul_comm in Hu.
  change (2 ^ 53) with 9007199254740992 in *.
  change (2 ^ 52) with 4503599627370496 in *.
  change (2 ^ 58) with 288230376151711744 in *.
  change (Z.pos 8646911284551352) with 8646911284551352 in *.
  pose proof (Z.div_mod (3 * n) 100 ltac:(lia)) as Hqr.
  pose proof (Z.mod_pos_bound (3 * n) 100 ltac:(lia)) as Hr.
  set (q := 3 * n / 100) in *. set (r := (3 * n) mod 100) in *.
  assert (HA : 0 < n * S < 2147483648 * S) by nia.
  assert (HQ : 3 * (n * S) = 100 * (q * S) + r * S) by nia.
  assert (HR : 0 <= r * S <= 99 * S) by nia.
  apply int_of_float_bracket; rewrite Hgt.
  - apply Z.ltb_ge.
    replace (q * (S * 288230376151711744)) with (q * S * 288230376151711744) by ring.
    destruct (Z.eq_dec r 0) as [Hr0 | Hr0].
    + assert (HT : q * S * 288230376151711744 = K * (32 * (q * S) * u))
        by (change 288230376151711744 with (32 * 9007199254740992);
            rewrite Hu; ring).
      rewrite HT. rewrite Hr0 in HQ. 
      set (t' := 32 * (q * S) * u) in *.
      apply Z.mul_le_mono_nonneg_l; [lia|].
      assert (Hpos : 0 < K * (v - t' + 1)).
      { replace (K * (v - t' + 1)) with (K * v - K * t' + K) by ring.
        rewrite <- HT. set (A := n * S) in *. set (Q := q * S) in *.
        set (X := K * v) in *. lia. }
      apply Z.mul_pos_cancel_l in Hpos; lia.
    + assert (HR1 : S <= r * S) by nia.
      set (A := n * S) in *. set (Q := q * S) in *. set (R := r * S) in *.
      set (X := K * v) in *. lia.
  - apply Z.ltb_lt.
    replace ((q + 1) * (S * 288230376151711744))
      with ((q * S + S) * 288230376151711744) by ring.
    set (A := n * S) in *. set (Q := q * S) in *. set (R := r * S) in *.
    set (X := K * v) in *. lia.
Qed.

(** [int(n * 0.05)] is the integer quotient [n / 20]. *)
Lemma margin_0_05_exact n : c_int n -> margin n c_0_05 = Ok (n / 20).
Proof.
  intros Hn. unfold c_int in Hn.
  destruct (Z.eq_dec n 0) as [-> | Hn0]; [reflexivity|].
  assert (Hn' : 0 < n < 2 ^ 52)
    by (change (2 ^ 52) with 4503599627370496; lia).
  destruct (mul_int_float_pos n 7205759403792794 (-57) Hn' eq_refl ltac:(lia))
    as (m & e & S & K & v & Hmul & HS & HK & Hgt & Herr & Hb & Hdiv).
  unfold margin, c_0_05. rewrite Hmul. cbn [bind].
  change (- -57) with 57 in Hgt.
  destruct Hdiv as [u Hu]. rewrite Z.mul_comm in Hu.
  change (2 ^ 53) with 9007199254740992 in *.
  change (2 ^ 52) with 4503599627370496 in *.
  change (2 ^ 57) with 144115188075855872 in *.
  change (Z.pos 7205759403792794) with 7205759403792794 in *.
  pose proof (Z.div_mod n 20 ltac:(lia)) as Hqr.
  pose proof (Z.mod_pos_bound n 20 ltac:(lia)) as Hr.
  set (q := n / 20) in *. set (r := n mod 20) in *.
  assert (HA : 0 < n * S < 2147483648 * S) by nia.
  assert (HQ : n * S = 20 * (q * S) + r * S) by nia.
  assert (HR : 0 <= r * S <= 19 * S) by nia.
  apply int_of_float_bracket; rewrite Hgt.
  - apply Z.ltb_ge.
    replace (q * (S * 144115188075855872)) with (q * S * 144115188075855872) by ring.
    destruct (Z.eq_dec r 0) as [Hr0 | Hr0].
    + assert (HT : q * S * 144115188075855872 = K * (16 * (q * S) * u))
        by (change 144115188075855872 with (16 * 9007199254740992);
            rewrite Hu; ring).
      rewrite HT. rewrite Hr0 in HQ.
      set (t' := 16 * (q * S) * u) in *.
      apply Z.mul_le_mono_nonneg_l; [lia|].
      assert (Hpos : 0 < K * (v - t' + 1)).
      { replace (K * (v - t' + 1)) with (K * v - K * t' + K) by ring.
        rewrite <- HT. set (A := n * S) in *. set (Q := q * S) in *.
        set (X := K * v) in *. lia. }
      apply Z.mul_pos_cancel_l in Hpos; lia.
    + assert (HR1 : S <= r * S) by nia.
      set (A := n * S) in *. set (Q := q * S) in *. set (R := r * S) in *.
      set (X := K * v) in *. lia.
  - apply Z.ltb_lt.
    replace ((q + 1) * (S * 144115188075855872))
      with ((q * S + S) * 144115188075855872) by ring.
    set (A := n * S) in *. set (Q := q * S) in *. set (R := r * S) in *.
    set (X := K * v) in *. lia.
Qed.

Import Trace.

(* ================================================================== *)
(** ** File names *)

Lemma of_uint_D0 d : Nat.of_uint (Decimal.D0 d) = Nat.of_uint d.
Proof. reflexivity. Qed.

Lemma int_of_digits_to_uint n :
  int_of_digits (DecimalString.NilZero.string_of_uint (Nat.to_uint n)) = Some n.
Proof.
  unfold int_of_digits, DecimalString.NilZero.string_of_uint.
  destruct (Nat.to_uint n) eqn:E;
    try (rewrite <- E, DecimalString.NilEmpty.usu; cbn [option_map];
         rewrite DecimalNat.Unsigned.of_to; reflexivity).
  cbn. f_equal. rewrite <- (DecimalNat.Unsigned.of_to n), E. reflexivity.
Qed.

(** Reading the digits of [f"{n:03d}"] gives [n] back. *)
Lemma int_of_digits_format_03d n : int_of_digits (format_03d n) = Some n.
Proof.
  pose proof (int_of_digits_to_uint n) as H.
  unfold format_03d.
  destruct (String.length _) as [|[|[|k]]]; try exact H;
    unfold int_of_digits in *; cbn [append DecimalString.NilEmpty.uint_of_string];
    destruct (DecimalString.NilEmpty.uint_of_string _) as [d|];
    try discriminate; cbn in *; exact H.
Qed.

Lemma format_03d_inj n m : format_03d n = format_03d m -> n = m.
Proof.
  intros H. pose proof (int_of_digits_format_03d n) as Hn.
  rewrite H, int_of_digits_format_03d in Hn. congruence.
Qed.

Lemma append_inj_r (a p q : string) : (a ++ p = a ++ q)%string -> p = q.
Proof.
  induction a as [|c a IH]; cbn; intros H; [assumption|].
  injection H as H. apply IH, H.
Qed.

Lemma length_append (a b : string) :
  String.length (a ++ b) = (String.length a + String.length b)%nat.
Proof. induction a as [|c a IH]; cbn; [reflexivity | rewrite IH; reflexivity]. Qed.

Lemma append_inj_l (p q s : string) :
  (p ++ s = q ++ s)%string -> p = q.
Proof.
  revert q. induction p as [|c p IH]; intros [|d q] H.
  - reflexivity.
  - exfalso. apply (f_equal String.length) in H. cbn in H.
    rewrite length_append in H. lia.
  - exfalso. apply (f_equal String.length) in H. cbn in H.
    rewrite length_append in H. lia.
  - cbn in H. injection H as -> H. f_equal. apply IH, H.
Qed.

Lemma path_join_inj a p q : path_join a p = path_join a q -> p = q.
Proof.
  unfold path_join. destruct a as [|c a]; [trivial|].
  destruct (ends_with_slash (String c a)); intros H.
  - apply append_inj_r in H. exact H.
  - apply append_inj_r in H. apply (append_inj_r "/") in H. exact H.
Qed.

(** Two contours of one call never share a file. *)
Lemma crop_path_inj out i j : crop_path out i = crop_path out j -> i = j.
Proof.
  unfold crop_path. intros H. apply path_join_inj in H.
  apply (append_inj_r "eq_") in H. apply append_inj_l in H.
  apply format_03d_inj, H.
Qed.

(* ================================================================== *)
(** ** What the call leaves behind *)

Section Effects.

Context {Pixel : Type} (cv : External Pixel).

(** One entry: either the crop is written (when asked) and the entry
    carries its path, or the box computation raised and nothing was
    written. *)
Lemma make_entry_trace (img : Image Pixel) save out ocr idx c fs fs' r :
  make_entry cv img save out ocr idx c fs = (fs', r) ->
  (exists e, r = Ok e /\
             fs' = fs ++ (if save then [ImWrite (crop_path out idx) (crop e)]
                          else []) /\
             saved_path e = if save then Some (crop_path out idx) else None) \/
  (exists err, r = Raise err /\ fs' = fs).
Proof.
  unfold make_entry, bindM, lift.
  destruct (clip_box img (boundingRect cv c)) as [[[[x0 y0] x1] y1]|err].
  - intros H. left.
    destruct save; unfold emit, ret in H; injection H as <- <-;
      eexists; (split; [reflexivity|]);
      destruct ocr; unfold recognize, with_saved_path; cbn [crop];
      try destruct (image_to_string cv _);
      unfold with_text, with_error; cbn [crop saved_path];
      rewrite ?app_nil_r; split; reflexivity.
  - intros H. injection H as <- <-. right. eexists. split; reflexivity.
Qed.

(** The loop, whatever the filter and whatever the outcome: the crops
    written so far come from contours met in order, each entry added
    carries the crop written for it. *)
Lemma loop_trace (f : Contour cv -> Z * Z -> Result bool)
  (img : Image Pixel) save out ocr cs :
  forall idx acc fs fs' r,
    loop cv f img save out ocr idx cs acc fs = (fs', r) ->
    exists ws : list (nat * Image Pixel),
      fs' = fs ++ (if save
                   then map (fun w => ImWrite (crop_path out (fst w)) (snd w)) ws
                   else []) /\
      Forall (fun w => (idx <= fst w)%nat) ws /\
      StronglySorted lt (map fst ws) /\
      (forall es, r = Ok es ->
         exists es',
           es = acc ++ es' /\
           Forall2 (fun w e =>
                      crop e = snd w /\
                      saved_path e =
                        if save then Some (crop_path out (fst w)) else None)
                   ws es' /\
           map fst ws =
             map fst (filter (fun p => match f (snd p) (shape0 img, shape1 img) with
                                       | Ok b => b
                                       | Raise _ => false
                                       end)
                             (combine (seq idx (List.length cs)) cs))).
Proof.
  induction cs as [|c cs IH]; intros idx acc fs fs' r.
  - cbn. unfold ret. intros H. injection H as <- <-. exists [].
    split; [destruct save; rewrite app_nil_r; reflexivity|].
    split; [constructor|]. split; [constructor|].
    intros es H. injection H as <-. exists [].
    rewrite app_nil_r. repeat split; constructor.
  - cbn [loop List.length seq combine filter snd]. unfold bindM at 1, lift.
    destruct (f c (shape0 img, shape1 img)) as [[|]|err]; cbn [negb].
    + unfold bindM.
      destruct (make_entry cv img save out ocr idx c fs) as [fs1 r1] eqn:Hmk.
      apply make_entry_trace in Hmk.
      destruct Hmk as [(e & -> & Hfs1 & Hpath) | (err & -> & ->)].
      * intros Hloop. apply IH in Hloop.
        destruct Hloop as (ws & Hfs' & Hge & Hsorted & Hok).
        exists ((idx, crop e) :: ws). cbn [map fst snd].
        split.
        { rewrite Hfs', Hfs1, <- app_assoc. f_equal. destruct save; reflexivity. }
        split.
        { constructor; [cbn; lia|]. eapply Forall_impl; [|exact Hge].
          cbn. intros; lia. }
        split.
        { constructor; [assumption|]. rewrite Forall_map.
          eapply Forall_impl; [|exact Hge]. cbn. intros; lia. }
        intros es Hr. destruct (Hok es Hr) as (es' & -> & Hall & Hidx).
        exists (e :: es'). rewrite <- app_assoc.
        split; [reflexivity|]. split.
        { constructor; [split; [reflexivity | exact Hpath] | exact Hall]. }
        rewrite Hidx. reflexivity.
      * intros H. injection H as <- <-. exists [].
        split; [destruct save; rewrite app_nil_r; reflexivity|].
        split; [constructor|]. split; [constructor|]. discriminate.
    + intros Hloop. apply IH in Hloop.
      destruct Hloop as (ws & Hfs' & Hge & Hsorted & Hok).
      exists ws. split; [exact Hfs'|].
      split; [eapply Forall_impl; [|exact Hge]; cbn; intros; lia|].
      split; [exact Hsorted|]. exact Hok.
    + intros H. injection H as <- <-. exists [].
      split; [destruct save; rewrite app_nil_r; reflexivity|].
      split; [constructor|]. split; [constructor|]. discriminate.
Qed.

Lemma detect_trace (img : Image Pixel) save out ocr fs fs' r :
  detect_equations_in_image cv img save out ocr fs = (fs', r) ->
  exists ws : list (nat * Image Pixel),
    fs' = fs ++ (if save
                 then MakeDirs out ::
                      map (fun w => ImWrite (crop_path out (fst w)) (snd w)) ws
                 else []) /\
    StronglySorted lt (map fst ws) /\
    (forall es, r = Ok es ->
       Forall2 (fun w e =>
                  crop e = snd w /\
                  saved_path e =
                    if save then Some (crop_path out (fst w)) else None)
               ws es /\
       map fst ws = accepted_indices cv img).
Proof.
  unfold detect_equations_in_image, detect_with, bindM. cbv zeta.
  change (_find_candidate_contours cv (_morph_close cv (_binarize cv (_to_gray cv img)) 25 3))
    with (raw_contours cv img).
  destruct save; unfold emit, ret; intros H; apply loop_trace in H;
    destruct H as (ws & Hfs & _ & Hsorted & Hok); exists ws.
  - split; [rewrite Hfs, <- app_assoc; reflexivity|].
    split; [exact Hsorted|].
    intros es Hr. destruct (Hok es Hr) as (es' & -> & Hall & Hidx).
    split; [exact Hall | exact Hidx].
  - split; [exact Hfs|]. split; [exact Hsorted|].
    intros es Hr. destruct (Hok es Hr) as (es' & -> & Hall & Hidx).
    split; [exact Hall | exact Hidx].
Qed.

End Effects.

(* ================================================================== *)
(** ** Crops *)

Section Crops.

Context {Pixel : Type}.




End Crops.

(* ================================================================== *)
(** ** Further properties of the detector *)

Lemma sorted_lt_NoDup (l : list nat) : StronglySorted lt l -> NoDup l.
Proof.
  induction 1 as [|a l Hs IH Ha]; constructor; [|assumption].
  intros Hin. rewrite Forall_forall in Ha. specialize (Ha a Hin). lia.
Qed.

Lemma NoDup_map_inj {A B} (f : A -> B) (l : list A) :
  (forall a b, f a = f b -> a = b) -> NoDup l -> NoDup (map f l).
Proof.
  intros Hf. induction 1 as [|a l Ha Hl IH]; cbn; constructor; [|assumption].
  intros Hin. apply in_map_iff in Hin. destruct Hin as (b & Hb & Hin).
  apply Hf in Hb. subst b. contradiction.
Qed.

Lemma written_paths_writes {Pixel} out (ws : list (nat * Image Pixel)) :
  written_paths (map (fun w => ImWrite (crop_path out (fst w)) (snd w)) ws)
  = map (crop_path out) (map fst ws).
Proof. induction ws as [|w ws IH]; cbn; [reflexivity | rewrite <- IH; reflexivity]. Qed.

Section Extras.

Context {Pixel : Type} (cv : External Pixel).

(** X1. For sizes that are C ints the float margins are integer
    quotients: [int(w * 0.03)] is [3 * w // 100] and [int(h * 0.05)] is
    [h // 20]; the rounding of the constants and of the products never
    shows. *)
Theorem X1_margins_are_integer_quotients (w h : Z) :
  c_int w -> c_int h ->
  margin w c_0_03 = Ok (3 * w / 100) /\ margin h c_0_05 = Ok (h / 20).
Proof.
  intros Hw Hh. split; [apply margin_0_03_exact | apply margin_0_05_exact];
    assumption.
Qed.

(** X2. For sizes that are C ints the filter never raises, and accepts
    a contour exactly when its bounding rect has an area of at least
    400, is not a full page, and is at least 10 wide and 10 high. *)
Theorem X2_filter_in_integers (c : Contour cv) (x y w h W H : Z) :
  boundingRect cv c = (x, y, w, h) ->
  c_int W -> c_int H -> c_int w -> c_int h ->
  exists b,
    _is_equation_like cv c (H, W) = Ok b /\
    (b = true <->
     400 <= w * h /\ ~ (95 * W < 100 * w /\ 95 * H < 100 * h) /\
     10 <= w /\ 10 <= h).
Proof.
  intros Hr HW HH Hw Hh. eexists.
  split; [apply (is_equation_like_spec cv c x y w h H W Hr HW HH Hw Hh)|].
  unfold too_small, too_thin.
  rewrite !andb_true_iff, !negb_true_iff, andb_false_iff, orb_false_iff,
    !Z.ltb_ge.
  lia.
Qed.


(** X4. With [save_crops=False] the call writes nothing and makes no
    directory, whatever its outcome, and no region carries a
    [saved_path]. *)
Theorem X4_nothing_written_without_save_crops
  (img : Image Pixel) out ocr fs fs' r :
  detect_equations_in_image cv img false out ocr fs = (fs', r) ->
  fs' = fs /\
  forall es, r = Ok es -> Forall (fun e => saved_path e = None) es.
Proof.
  intros H. apply detect_trace in H. destruct H as (ws & Hfs & _ & Hok).
  split; [rewrite Hfs; apply app_nil_r|].
  intros es Hr. destruct (Hok es Hr) as [Hall _].
  eapply Forall2_In_right; [exact Hall|]. intros w e _ [_ He]. exact He.
Qed.

(** X5. With [save_crops=True] a call that returns has made the
    directory first and then written one image per region, in the
    order of the regions: the crop of the region, to the path the
    region carries as [saved_path]. *)
Theorem X5_one_file_per_region (img : Image Pixel) out ocr fs fs' es :
  detect_equations_in_image cv img true out ocr fs = (fs', Ok es) ->
  exists writes,
    fs' = fs ++ MakeDirs out :: writes /\
    Forall2 (fun ev e => exists p, ev = ImWrite p (crop e) /\
                                   saved_path e = Some p)
            writes es.
Proof.
  intros H. apply detect_trace in H. destruct H as (ws & Hfs & _ & Hok).
  destruct (Hok es eq_refl) as [Hall _].
  eexists. split; [exact Hfs|]. clear Hfs Hok.
  induction Hall as [|w e ws es [Hcrop Hpath] Hall IH]; cbn [map]; constructor;
    [|exact IH].
  exists (crop_path out (fst w)). rewrite Hcrop. split; [reflexivity | exact Hpath].
Qed.

(** X6. Whatever the outcome of a call, the images it has written went
    to pairwise distinct paths: no crop overwrites another crop of the
    same call. *)
Theorem X6_crop_files_are_distinct (img : Image Pixel) save out ocr fs fs' r :
  detect_equations_in_image cv img save out ocr fs = (fs', r) ->
  exists evs, fs' = fs ++ evs /\ NoDup (written_paths evs).
Proof.
  intros H. apply detect_trace in H. destruct H as (ws & Hfs & Hsorted & _).
  eexists. split; [exact Hfs|].
  destruct save; [|constructor].
  cbn [written_paths flat_map app].
  change (flat_map _ ?l) with (written_paths l).
  rewrite written_paths_writes.
  apply NoDup_map_inj; [apply crop_path_inj | apply sorted_lt_NoDup, Hsorted].
Qed.

(** X7. The file of a region is numbered with the position of its
    contour among all the sorted contours, rejected ones included; the
    numbers of the files of one call increase with the regions but
    need not be consecutive. *)
Theorem X7_files_numbered_by_contour_position
  (img : Image Pixel) out ocr fs fs' es :
  detect_equations_in_image cv img true out ocr fs = (fs', Ok es) ->
  map saved_path es =
    map (fun i => Some (crop_path out i)) (accepted_indices cv img) /\
  StronglySorted lt (accepted_indices cv img).
Proof.
  intros H. apply detect_trace in H. destruct H as (ws & _ & Hsorted & Hok).
  destruct (Hok es eq_refl) as [Hall Hidx]. rewrite <- Hidx.
  split; [|exact Hsorted]. clear Hidx Hok Hsorted.
  induction Hall as [|w e ws es [_ Hpath] Hall IH]; cbn [map];
    [reflexivity | rewrite Hpath, IH; reflexivity].
Qed.

(** X8. A call that returns gives at most one region per contour; on
    an image without contours it gives the empty list and has at most
    made the output directory. *)
Theorem X8_at_most_one_region_per_contour
  (img : Image Pixel) save out ocr fs fs' es :
  detect_equations_in_image cv img save out ocr fs = (fs', Ok es) ->
  (List.length es <= List.length (raw_contours cv img))%nat /\
  (raw_contours cv img = [] ->
   es = [] /\ fs' = fs ++ (if save then [MakeDirs out] else [])).
Proof.
  intros H. apply detect_trace in H. destruct H as (ws & Hfs & _ & Hok).
  destruct (Hok es eq_refl) as [Hall Hidx].
  assert (Hlen : List.length es = List.length (accepted_indices cv img)).
  { rewrite <- Hidx, length_map. symmetry. eapply Forall2_length, Hall. }
  split.
  - rewrite Hlen. unfold accepted_indices. cbv zeta. rewrite length_map.
    etransitivity; [apply filter_length_le|].
    rewrite length_combine, length_seq, Nat.min_id.
    rewrite (Permutation_length (sorted_perm _ _)). reflexivity.
  - intros Hraw. unfold accepted_indices in Hidx. rewrite Hraw in Hidx.
    cbn in Hidx. destruct ws; [|discriminate].
    inversion Hall; subst. split; [reflexivity|].
    destruct save; reflexivity.
Qed.



End Extras.










Section Order.

Context {Pixel : Type} (cv : External Pixel).





End Order.

(* ================================================================== *)
(** ** The document builders and the extractors *)

Import Doc.

Lemma enumerate_In {A} (l : list A) q i a :
  In (i, a) (enumerate q l) <->
  q <= i /\ nth_error l (Z.to_nat (i - q)) = Some a.
Proof.
  revert q. induction l as [|a0 l IH]; intros q; cbn [enumerate In].
  - split; [contradiction|]. intros [_ H]. destruct (Z.to_nat (i - q)); discriminate.
  - rewrite IH. split.
    + intros [[= <- <-] | [Hq Hn]].
      * split; [lia|]. rewrite Z.sub_diag. reflexivity.
      * split; [lia|].
        replace (Z.to_nat (i - q)) with (S (Z.to_nat (i - (q + 1)))) by lia.
        exact Hn.
    + intros [Hq Hn]. destruct (Z.eq_dec q i) as [->|Hne].
      * rewrite Z.sub_diag in Hn. cbn in Hn. left. congruence.
      * right. split; [lia|].
        replace (Z.to_nat (i - q)) with (S (Z.to_nat (i - (q + 1)))) in Hn by lia.
        exact Hn.
Qed.

Lemma numbered_tables_In pages p i d :
  In (p, (i, d)) (numbered_tables 1 pages) <-> table_at pages p i = Some d.
Proof.
  unfold numbered_tables, table_at, page_at. rewrite in_flat_map. split.
  - intros ([q page] & Hq & Hin). cbn [fst snd] in Hin.
    apply in_map_iff in Hin. destruct Hin as ([i' d'] & [= <- <- <-] & Hin).
    apply enumerate_In in Hq. destruct Hq as [Hq Hpage].
    apply enumerate_In in Hin. destruct Hin as [Hi Hd].
    destruct (1 <=? q) eqn:E; [|apply Z.leb_gt in E; lia].
    rewrite Hpage. destruct (0 <=? i') eqn:E'; [|apply Z.leb_gt in E'; lia].
    rewrite Z.sub_0_r in Hd. exact Hd.
  - destruct (1 <=? p) eqn:E; [|discriminate]. apply Z.leb_le in E.
    destruct (nth_error pages (Z.to_nat (p - 1))) as [page|] eqn:Hpage;
      [|discriminate].
    destruct (0 <=? i) eqn:E'; [|discriminate]. apply Z.leb_le in E'.
    intros Hd. exists (p, page). split.
    + apply enumerate_In. split; assumption.
    + cbn [fst snd]. apply in_map_iff. exists (i, d). split; [reflexivity|].
      apply enumerate_In. rewrite Z.sub_0_r. split; assumption.
Qed.

Lemma comprehension_app {A B} (cond : A -> Res bool) (elt : A -> Res B) l1 l2 :
  comprehension cond elt (l1 ++ l2) =
  let* a := comprehension cond elt l1 in
  let* b := comprehension cond elt l2 in
  Val (a ++ b).
Proof.
  induction l1 as [|a l1 IH]; cbn [app comprehension].
  - cbn. destruct (comprehension cond elt l2); reflexivity.
  - destruct (cond a) as [[|]|e]; cbn [bind]; [| exact IH | reflexivity].
    destruct (elt a) as [x|e]; cbn [bind]; [|reflexivity].
    rewrite IH.
    destruct (comprehension cond elt l1) as [xs|e]; cbn [bind]; [|reflexivity].
    destruct (comprehension cond elt l2) as [ys|e]; reflexivity.
Qed.

Section Documents.

Variable lib : Library.

(** The entries the extractor makes for the tables of the pages. *)
Lemma tables_of_page_spec q idx tables ts :
  tables_of_page lib q idx tables = Val ts ->
  Forall2 (fun it t => exists df, as_dataframe lib (snd it) = Val df /\
                                  t = table_entry q (fst it) (snd it) df)
          (enumerate idx tables) ts.
Proof.
  revert idx ts. induction tables as [|d tables IH]; intros idx ts;
    cbn [tables_of_page enumerate].
  - intros [= <-]. constructor.
  - destruct (as_dataframe lib d) as [df|e] eqn:Hdf; cbn [bind]; [|discriminate].
    destruct (tables_of_page lib q (idx + 1) tables) as [more|e] eqn:Hm;
      cbn [bind]; [|discriminate].
    intros [= <-]. constructor; [|apply IH; exact Hm].
    exists df. split; [exact Hdf | reflexivity].
Qed.

Lemma tables_of_pages_spec q pages ts :
  tables_of_pages lib q pages = Val ts ->
  Forall2 (fun n t => exists df,
             as_dataframe lib (snd (snd n)) = Val df /\
             t = table_entry (fst n) (fst (snd n)) (snd (snd n)) df)
          (numbered_tables q pages) ts.
Proof.
  unfold numbered_tables.
  revert q ts. induction pages as [|page pages IH]; intros q ts;
    cbn [tables_of_pages enumerate flat_map].
  - intros [= <-]. constructor.
  - destruct (tables_of_page lib q 0 (page_tables page)) as [here|e] eqn:Hh;
      cbn [bind]; [|discriminate].
    destruct (tables_of_pages lib (q + 1) pages) as [more|e] eqn:Hm;
      cbn [bind]; [|discriminate].
    intros [= <-]. apply Forall2_app; [|apply IH; exact Hm].
    apply tables_of_page_spec in Hh. cbn [fst snd].
    clear -Hh. induction Hh as [|it t its ts' H Hrest IH]; cbn [map];
      constructor; [exact H | exact IH].
Qed.

Lemma Forall2_In_left {A B} (R : A -> B -> Prop) l l' a :
  Forall2 R l l' -> In a l -> exists b, In b l' /\ R a b.
Proof.
  induction 1 as [|x y l l' HR Hrest IH]; intros Hin; [contradiction|].
  destruct Hin as [<-|Hin].
  - exists y. split; [left; reflexivity | exact HR].
  - destruct (IH Hin) as (b & Hb & Hab). exists b. split; [right|]; assumption.
Qed.

Lemma Forall2_In_back {A B} (R : A -> B -> Prop) l l' b :
  Forall2 R l l' -> In b l' -> exists a, In a l /\ R a b.
Proof.
  induction 1 as [|x y l l' HR Hrest IH]; intros Hin; [contradiction|].
  destruct Hin as [<-|Hin].
  - exists x. split; [left; reflexivity | exact HR].
  - destruct (IH Hin) as (a & Ha & Hab). exists a. split; [right|]; assumption.
Qed.

Lemma table_entry_inj p i d df p' i' d' df' :
  table_entry p i d df = table_entry p' i' d' df' ->
  p = p' /\ i = i' /\ d = d' /\ df = df'.
Proof. unfold table_entry. intros [= -> -> -> ->]. repeat split. Qed.

Lemma table_at_firstn pages k p i d :
  table_at (firstn k pages) p i = Some d <->
  table_at pages p i = Some d /\ p <= Z.of_nat k.
Proof.
  unfold table_at, page_at. destruct (1 <=? p) eqn:E.
  - apply Z.leb_le in E. rewrite nth_error_firstn.
    destruct (Nat.ltb_spec (Z.to_nat (p - 1)) k) as [Hlt|Hge].
    + split; [intros H; split; [exact H | lia] | intros [H _]; exact H].
    + split; [discriminate|]. intros [_ H]. lia.
  - split; [discriminate | intros [H _]; discriminate].
Qed.

(** The first entry for page [p] and position [i]. *)
Lemma first_table_spec p i ns ts :
  Forall2 (fun n t => exists df,
             as_dataframe lib (snd (snd n)) = Val df /\
             t = table_entry (fst n) (fst (snd n)) (snd (snd n)) df) ns ts ->
  (exists d df, In (p, (i, d)) ns /\ as_dataframe lib d = Val df /\
                first_table p i ts = Val (table_entry p i d df)) \/
  ((forall d, ~ In (p, (i, d)) ns) /\
   first_table p i ts = Exc (ValueError (no_table p i))).
Proof.
  induction 1 as [|[q [j d]] t ns ts (df & Hdf & ->) Hrest IH];
    cbn [first_table fst snd].
  - right. split; [intros d []|reflexivity].
  - change (getitem (table_entry q j d df) "page") with (Val (VInt q)).
    cbn [bind eq_int].
    change (getitem (table_entry q j d df) "table_index") with (Val (VInt j)).
    cbn [bind eq_int].
    destruct (Z.eqb_spec q p) as [->|Hq].
    + destruct (Z.eqb_spec j i) as [->|Hj].
      * left. exists d, df. split; [left; reflexivity|]. split; [exact Hdf|reflexivity].
      * destruct IH as [(d' & df' & Hin & Hdf' & Hres) | [Hno Hres]].
        -- left. exists d', df'. split; [right; exact Hin|]. split; assumption.
        -- right. split; [|exact Hres]. intros d' [[=]|Hin]; [congruence|].
           exact (Hno d' Hin).
    + destruct IH as [(d' & df' & Hin & Hdf' & Hres) | [Hno Hres]].
      * left. exists d', df'. split; [right; exact Hin|]. split; assumption.
      * right. split; [|exact Hres]. intros d' [[=]|Hin]; [congruence|].
        exact (Hno d' Hin).
Qed.

(** X15. The entries [extract_tables] returns are the tables of the
    pages read, each with the 1-based number of its page and its
    0-based position on the page; [max_pages], when it is not
    negative, limits the pages read to the first [max_pages]. *)
Theorem X15_tables_numbered_by_page_and_position
  (pdf_path : string) (max_pages : option Z) pages ts :
  pdfplumber_open lib pdf_path = Val pages ->
  (forall n, max_pages = Some n -> 0 <= n) ->
  extract_tables lib pdf_path max_pages = Val ts ->
  Forall (fun t => exists p i d df, t = table_entry p i d df) ts /\
  forall p i d,
    (exists df, In (table_entry p i d df) ts) <->
    (table_at pages p i = Some d /\
     forall n, max_pages = Some n -> p <= n).
Proof.
  intros Hopen Hmax. unfold extract_tables. rewrite Hopen. cbn [bind].
  set (read := match max_pages with
               | Some n => slice 0 n (Z.of_nat (List.length pages)) pages
               | None => pages
               end).
  intros Hts. apply tables_of_pages_spec in Hts.
  assert (Hread : forall p i d,
             table_at read p i = Some d <->
             table_at pages p i = Some d /\
             forall n, max_pages = Some n -> p <= n).
  { intros p i d. subst read. destruct max_pages as [n|].
    - specialize (Hmax n eq_refl).
      unfold slice, slice_index.
      destruct (0 <? 0) eqn:E0; [discriminate|].
      destruct (n <? 0) eqn:En; [apply Z.ltb_lt in En; lia|].
      replace (Z.min 0 (Z.of_nat (List.length pages))) with 0 by lia.
      rewrite Z.sub_0_r. cbn [Z.to_nat skipn].
      rewrite table_at_firstn. split.
      + intros [H Hp]. split; [exact H|]. intros n' [= <-].
        unfold table_at, page_at in H.
        destruct (1 <=? p) eqn:E; [|discriminate]. apply Z.leb_le in E.
        destruct (nth_error pages (Z.to_nat (p - 1))) eqn:Hn; [|discriminate].
        assert (Z.to_nat (p - 1) < List.length pages)%nat
          by (apply nth_error_Some; congruence).
        lia.
      + intros [H Hp]. split; [exact H|]. specialize (Hp n eq_refl).
        unfold table_at, page_at in H.
        destruct (1 <=? p) eqn:E; [|discriminate]. apply Z.leb_le in E.
        destruct (nth_error pages (Z.to_nat (p - 1))) eqn:Hn; [|discriminate].
        assert (Z.to_nat (p - 1) < List.length pages)%nat
          by (apply nth_error_Some; congruence).
        lia.
    - split; [intros H; split; [exact H | discriminate] | intros [H _]; exact H]. }
  split.
  - eapply Forall2_In_right; [exact Hts|].
    intros [q [j d]] t _ (df & _ & ->). exists q, j, d, df. reflexivity.
  - intros p i d. rewrite <- Hread, <- numbered_tables_In. split.
    + intros [df Hin].
      destruct (Forall2_In_back _ _ _ _ Hts Hin) as ([q [j d']] & Hn & df' & _ & He).
      cbn [fst snd] in He. apply table_entry_inj in He.
      destruct He as (-> & -> & -> & _). exact Hn.
    + intros Hin.
      destruct (Forall2_In_left _ _ _ _ Hts Hin) as (t & Ht & df & _ & ->).
      exists df. exact Ht.
Qed.

(** X16. When [extract_tables] returns, [extract_single_table] returns
    the entry of table [table_index] of page [page_number], if the
    document has such a table, and raises [ValueError] otherwise; a
    negative index or a page number below 1 finds nothing. *)
Theorem X16_single_table_is_the_table_asked_for
  (pdf_path : string) (page_number table_index : Z) pages ts :
  pdfplumber_open lib pdf_path = Val pages ->
  extract_tables lib pdf_path None = Val ts ->
  match table_at pages page_number table_index with
  | Some d =>
      exists df,
        as_dataframe lib d = Val df /\
        extract_single_table lib pdf_path page_number table_index
        = Val (table_entry page_number table_index d df)
  | None =>
      extract_single_table lib pdf_path page_number table_index
      = Exc (ValueError (no_table page_number table_index))
  end.
Proof.
  intros Hopen Hts. unfold extract_single_table. rewrite Hts. cbn [bind].
  unfold extract_tables in Hts. rewrite Hopen in Hts. cbn [bind] in Hts.
  apply tables_of_pages_spec in Hts.
  destruct (first_table_spec page_number table_index _ _ Hts)
    as [(d & df & Hin & Hdf & Hres) | [Hno Hres]].
  - apply numbered_tables_In in Hin. rewrite Hin. exists df. split; assumption.
  - destruct (table_at pages page_number table_index) as [d|] eqn:Hat;
      [|exact Hres].
    apply numbered_tables_In in Hat. destruct (Hno d Hat).
Qed.

(** The page's comprehension over the entries of one page. *)
Lemma tables_of_page_on_page p q idx tables here :
  tables_of_page lib q idx tables = Val here ->
  comprehension (on_page p) table_record here =
  Val (if q =? p
       then map (fun it => VDict [("table_index"%string, VInt (fst it));
                                  ("data"%string, snd it)])
                (enumerate idx tables)
       else []).
Proof.
  intros H. apply tables_of_page_spec in H.
  induction H as [|[j d] t its ts (df & _ & ->) Hrest IH];
    cbn [comprehension enumerate map fst snd].
  - destruct (q =? p); reflexivity.
  - unfold on_page at 1.
    change (getitem (table_entry q j d df) "page") with (Val (VInt q)).
    cbn [bind eq_int]. rewrite IH. destruct (q =? p); [|reflexivity].
    unfold table_record.
    change (getitem (table_entry q j d df) "table_index") with (Val (VInt j)).
    change (getitem (table_entry q j d df) "data") with (Val d).
    reflexivity.
Qed.

Lemma tables_of_pages_on_page p q pages ts :
  tables_of_pages lib q pages = Val ts ->
  comprehension (on_page p) table_record ts =
  Val (match (if q <=? p then nth_error pages (Z.to_nat (p - q)) else None) with
       | Some page =>
           map (fun it => VDict [("table_index"%string, VInt (fst it));
                                 ("data"%string, snd it)])
               (enumerate 0 (page_tables page))
       | None => []
       end).
Proof.
  revert q ts. induction pages as [|page pages IH]; intros q ts;
    cbn [tables_of_pages].
  - intros [= <-]. cbn [comprehension].
    destruct (q <=? p); [destruct (Z.to_nat (p - q))|]; reflexivity.
  - destruct (tables_of_page lib q 0 (page_tables page)) as [here|e] eqn:Hh;
      cbn [bind]; [|discriminate].
    destruct (tables_of_pages lib (q + 1) pages) as [more|e] eqn:Hm;
      cbn [bind]; [|discriminate].
    intros [= <-]. rewrite comprehension_app.
    rewrite (tables_of_page_on_page p q 0 _ _ Hh), (IH _ _ Hm). cbn [bind].
    destruct (Z.eqb_spec q p) as [->|Hq].
    + rewrite Z.leb_refl, Z.sub_diag. cbn [Z.to_nat nth_error].
      destruct (p + 1 <=? p) eqn:E; [apply Z.leb_le in E; lia|].
      rewrite app_nil_r. reflexivity.
    + cbn [app]. destruct (q <=? p) eqn:E.
      * apply Z.leb_le in E.
        destruct (q + 1 <=? p) eqn:E'; [|apply Z.leb_gt in E'; lia].
        replace (Z.to_nat (p - q)) with (S (Z.to_nat (p - (q + 1)))) by lia.
        reflexivity.
      * apply Z.leb_gt in E.
        destruct (q + 1 <=? p) eqn:E'; [apply Z.leb_le in E'; lia|].
        reflexivity.
Qed.

Lemma images_of_page_on_page eqimg p q page imgs here :
  images_of_page lib q page imgs = Val here ->
  exists recs,
    comprehension (on_page p) (image_record eqimg) here = Val recs /\
    if q =? p then Forall2 (image_record_of eqimg) imgs recs else recs = [].
Proof.
  revert here. induction imgs as [|img imgs IH]; intros here;
    cbn [images_of_page].
  - intros [= <-]. exists []. split; [reflexivity|].
    destruct (q =? p); [constructor | reflexivity].
  - unfold getitem at 1 2 3 4.
    destruct (get img "x0") as [x0|] eqn:H0; cbn [bind]; [|discriminate].
    destruct (get img "y0") as [y0|] eqn:H1; cbn [bind]; [|discriminate].
    destruct (get img "x1") as [x1|] eqn:H2; cbn [bind]; [|discriminate].
    destruct (get img "y1") as [y1|] eqn:H3; cbn [bind]; [|discriminate].
    destruct (to_image page (VTuple [x0; y0; x1; y1])) as [pil|e];
      cbn [bind]; [|discriminate].
    destruct (images_of_page lib q page imgs) as [more|e]; cbn [bind];
      [|discriminate].
    intros [= <-]. destruct (IH more eq_refl) as (recs & Hrecs & Hshape).
    cbn [comprehension]. unfold on_page at 1.
    change (getitem (image_entry lib q (VTuple [x0; y0; x1; y1]) pil) "page")
      with (Val (VInt q)).
    cbn [bind eq_int]. rewrite Hrecs.
    destruct (q =? p).
    + unfold image_record.
      change (getitem (image_entry lib q (VTuple [x0; y0; x1; y1]) pil) "bbox")
        with (Val (VTuple [x0; y0; x1; y1])).
      cbn [bind]. eexists. split; [reflexivity|].
      constructor; [|exact Hshape].
      exists x0, y0, x1, y1. repeat split; assumption.
    + exists recs. split; [reflexivity | exact Hshape].
Qed.

Lemma images_of_pages_on_page eqimg p q pages ims :
  images_of_pages lib q pages = Val ims ->
  exists recs,
    comprehension (on_page p) (image_record eqimg) ims = Val recs /\
    Forall2 (image_record_of eqimg)
            (match (if q <=? p then nth_error pages (Z.to_nat (p - q))
                    else None) with
             | Some page => page_images page
             | None => []
             end) recs.
Proof.
  revert q ims. induction pages as [|page pages IH]; intros q ims;
    cbn [images_of_pages].
  - intros [= <-]. exists []. split; [reflexivity|].
    destruct (q <=? p); [destruct (Z.to_nat (p - q))|]; constructor.
  - destruct (images_of_page lib q page (page_images page)) as [here|e] eqn:Hh;
      cbn [bind]; [|discriminate].
    destruct (images_of_pages lib (q + 1) pages) as [more|e] eqn:Hm;
      cbn [bind]; [|discriminate].
    intros [= <-]. rewrite comprehension_app.
    destruct (images_of_page_on_page eqimg p q page _ _ Hh) as (r1 & Hr1 & S1).
    destruct (IH _ _ Hm) as (r2 & Hr2 & S2).
    rewrite Hr1, Hr2. cbn [bind]. exists (r1 ++ r2). split; [reflexivity|].
    destruct (Z.eqb_spec q p) as [->|Hq].
    + rewrite Z.leb_refl, Z.sub_diag. cbn [Z.to_nat nth_error].
      destruct (p + 1 <=? p) eqn:E; [apply Z.leb_le in E; lia|].
      inversion S2; subst. rewrite app_nil_r. exact S1.
    + subst r1. cbn [app]. destruct (q <=? p) eqn:E.
      * apply Z.leb_le in E.
        destruct (q + 1 <=? p) eqn:E'; [|apply Z.leb_gt in E'; lia].
        replace (Z.to_nat (p - q)) with (S (Z.to_nat (p - (q + 1)))) by lia.
        exact S2.
      * apply Z.leb_gt in E.
        destruct (q + 1 <=? p) eqn:E'; [apply Z.leb_le in E'; lia|].
        exact S2.
Qed.

(** X17. Fed with what the two extractors return for a document,
    [build_page_json] never raises: for every page number it returns
    the page's JSON, whose tables are the tables of that page of the
    document, in order and with their positions, and whose images are
    the images of that page; a page the document does not have gets no
    tables and no images. *)
Theorem X17_page_json_of_a_document
  (pdf_path : string) pages ts ims (page_num : Z) (text : string)
  (equations_text : list Value) (equations_img : option (list Value)) :
  pdfplumber_open lib pdf_path = Val pages ->
  extract_tables lib pdf_path None = Val ts ->
  extract_images lib pdf_path = Val ims ->
  exists recs,
    build_page_json page_num text ts ims equations_text equations_img
    = Val (VDict [("page"%string, VInt page_num);
                  ("text"%string, VStr text);
                  ("tables"%string, VList (table_records pages page_num));
                  ("images"%string, VList recs);
                  ("equations"%string, VList equations_text)]) /\
    Forall2 (image_record_of equations_img) (images_at pages page_num) recs.
Proof.
  intros Hopen Hts Hims.
  unfold extract_tables in Hts. rewrite Hopen in Hts. cbn [bind] in Hts.
  unfold extract_images in Hims. rewrite Hopen in Hims. cbn [bind] in Hims.
  destruct (images_of_pages_on_page equations_img page_num 1 pages ims Hims)
    as (recs & Hrecs & Hshape).
  exists recs. unfold build_page_json.
  rewrite (tables_of_pages_on_page page_num 1 pages ts Hts), Hrecs. cbn [bind].
  split; [reflexivity | exact Hshape].
Qed.

End Documents.

Lemma getitem_Val d k :
  (exists v, getitem d k = Val v) <-> get d k <> None.
Proof.
  unfold getitem. destruct (get d k) as [v|]; split.
  - discriminate.
  - intros _. exists v. reflexivity.
  - intros [v [=]].
  - intros H. destruct H. reflexivity.
Qed.

Lemma comprehension_Val {A B} (cond : A -> Res bool) (elt : A -> Res B) l :
  (exists xs, comprehension cond elt l = Val xs) <->
  Forall (fun a => exists b, cond a = Val b /\
                             (b = true -> exists x, elt a = Val x)) l.
Proof.
  induction l as [|a l IH]; cbn [comprehension].
  - split; [constructor | intros _; exists []; reflexivity].
  - split.
    + intros [xs H]. destruct (cond a) as [[|]|e] eqn:Hc; cbn [bind] in H;
        [| |discriminate].
      * destruct (elt a) as [x|e] eqn:He; cbn [bind] in H; [|discriminate].
        destruct (comprehension cond elt l) as [xs'|e]; [|discriminate].
        constructor; [|apply IH; eexists; reflexivity].
        exists true. split; [exact Hc|]. intros _. exists x. exact He.
      * constructor; [|apply IH; exists xs; exact H].
        exists false. split; [exact Hc | discriminate].
    + intros H. inversion H as [|? ? (b & Hc & He) Hl]; subst.
      apply IH in Hl. destruct Hl as [xs Hxs]. rewrite Hc. cbn [bind].
      destruct b.
      * destruct (He eq_refl) as [x Hx]. rewrite Hx, Hxs. cbn [bind].
        eexists; reflexivity.
      * exists xs. exact Hxs.
Qed.

Lemma comprehension_Exc {A B} (cond : A -> Res bool) (elt : A -> Res B)
  (P : exc -> Prop) l e :
  (forall a e', cond a = Exc e' -> P e') ->
  (forall a e', elt a = Exc e' -> P e') ->
  comprehension cond elt l = Exc e -> P e.
Proof.
  intros Hc He. induction l as [|a l IH]; cbn [comprehension]; [discriminate|].
  destruct (cond a) as [[|]|e'] eqn:Ec; cbn [bind].
  - destruct (elt a) as [x|e'] eqn:Ee; cbn [bind].
    + destruct (comprehension cond elt l) as [xs|e'']; cbn [bind];
        [discriminate|].
      intros [= <-]. apply IH. reflexivity.
    + intros [= <-]. eapply He, Ee.
  - exact IH.
  - intros [= <-]. eapply Hc, Ec.
Qed.

Lemma on_page_Val p d b :
  on_page p d = Val b <-> exists v, get d "page" = Some v /\ eq_int v p = b.
Proof.
  unfold on_page, getitem. destruct (get d "page") as [v|]; cbn [bind]; split.
  - intros [= <-]. exists v. split; reflexivity.
  - intros (v' & [= <-] & <-). reflexivity.
  - discriminate.
  - intros (v' & [=] & _).
Qed.

Lemma usable_comprehension p keys (elt : Dict -> Res Value) l :
  (forall d, (exists x, elt d = Val x) <->
             Forall (fun k => get d k <> None) keys) ->
  (exists xs, comprehension (on_page p) elt l = Val xs) <->
  Forall (usable p keys) l.
Proof.
  intros Helt. rewrite comprehension_Val. split; intros H;
    (eapply Forall_impl; [|exact H]); cbn beta.
  - intros d (b & Hb & Hx). apply on_page_Val in Hb.
    destruct Hb as (v & Hv & <-). exists v. split; [exact Hv|].
    intros Hp. apply Helt, Hx, Hp.
  - intros d (v & Hv & Hk). exists (eq_int v p).
    split; [apply on_page_Val; exists v; split; [exact Hv | reflexivity]|].
    intros Hp. apply Helt, Hk, Hp.
Qed.

Lemma table_record_Val d :
  (exists x, table_record d = Val x) <->
  Forall (fun k => get d k <> None) ["table_index"; "data"]%string.
Proof.
  unfold table_record, getitem. split.
  - intros [x H].
    destruct (get d "table_index") eqn:E1; cbn [bind] in H; [|discriminate].
    destruct (get d "data") eqn:E2; cbn [bind] in H; [|discriminate].
    constructor; [congruence|]. constructor; [congruence | constructor].
  - intros H. inversion H as [|? ? H1 H']; subst.
    inversion H' as [|? ? H2 _]; subst.
    destruct (get d "table_index"); [|destruct H1; reflexivity].
    destruct (get d "data"); [|destruct H2; reflexivity].
    eexists; reflexivity.
Qed.

Lemma image_record_Val eqimg d :
  (exists x, image_record eqimg d = Val x) <->
  Forall (fun k => get d k <> None) ["bbox"]%string.
Proof.
  unfold image_record, getitem. split.
  - intros [x H].
    destruct (get d "bbox") eqn:E1; cbn [bind] in H; [|discriminate].
    constructor; [congruence | constructor].
  - intros H. inversion H as [|? ? H1 _]; subst.
    destruct (get d "bbox"); [|destruct H1; reflexivity].
    eexists; reflexivity.
Qed.

(** X18. [build_page_json] returns exactly when every table and every
    image has a page, and those of the page asked for have the keys
    copied from them: a table of another page needs no
    [table_index] and no [data].  It raises nothing but the
    [KeyError] of one of these keys. *)
Theorem X18_page_json_raises_only_for_missing_keys
  (page_num : Z) (text : string) (tables images : list Dict)
  (equations_text : list Value) (equations_img : option (list Value)) :
  ((exists v, build_page_json page_num text tables images equations_text
                              equations_img = Val v) <->
   Forall (usable page_num ["table_index"; "data"]%string) tables /\
   Forall (usable page_num ["bbox"]%string) images) /\
  forall e, build_page_json page_num text tables images equations_text
                            equations_img = Exc e ->
            exists k, e = KeyError k /\
                      In k ["page"; "table_index"; "data"; "bbox"]%string.
Proof.
  unfold build_page_json. split.
  - rewrite <- (usable_comprehension page_num _ table_record tables
                  table_record_Val).
    rewrite <- (usable_comprehension page_num _ (image_record equations_img)
                  images (image_record_Val equations_img)).
    split.
    + intros [v H].
      destruct (comprehension (on_page page_num) table_record tables)
        as [ts|e]; cbn [bind] in H; [|discriminate].
      destruct (comprehension (on_page page_num) (image_record equations_img)
                              images) as [ims|e]; cbn [bind] in H;
        [|discriminate].
      split; eexists; reflexivity.
    + intros [[ts ->] [ims ->]]. cbn [bind]. eexists; reflexivity.
  - intros e H.
    set (P := fun e => exists k, e = KeyError k /\
                       In k ["page"; "table_index"; "data"; "bbox"]%string).
    assert (Hpage : forall d e', on_page page_num d = Exc e' -> P e').
    { intros d e'. unfold on_page, getitem.
      destruct (get d "page"); cbn [bind]; [discriminate|].
      intros [= <-]. eexists. split; [reflexivity|]. cbn. tauto. }
    destruct (comprehension (on_page page_num) table_record tables)
      as [ts|e1] eqn:H1; cbn [bind] in H.
    + destruct (comprehension (on_page page_num) (image_record equations_img)
                              images) as [ims|e2] eqn:H2; cbn [bind] in H;
        [discriminate|].
      injection H as <-. change (P e2). revert H2.
      apply (comprehension_Exc _ _ P); [exact Hpage|].
      intros d e'. unfold image_record, getitem.
      destruct (get d "bbox"); cbn [bind]; [discriminate|].
      intros [= <-]. eexists. split; [reflexivity|]. cbn. tauto.
    + injection H as <-. change (P e1). revert H1.
      apply (comprehension_Exc _ _ P); [exact Hpage|].
      intros d e'. unfold table_record, getitem.
      destruct (get d "table_index"); cbn [bind].
      * destruct (get d "data"); cbn [bind]; [discriminate|].
        intros [= <-]. eexists. split; [reflexivity|]. cbn. tauto.
      * intros [= <-]. eexists. split; [reflexivity|]. cbn. tauto.
Qed.

Lemma comprehension_of_page {B} p (elt : Dict -> Res B) l l' :
  of_page p l = Val l' ->
  comprehension (on_page p) elt l' = comprehension (on_page p) elt l.
Proof.
  unfold of_page. revert l'. induction l as [|a l IH]; intros l';
    cbn [comprehension].
  - intros [= <-]. reflexivity.
  - destruct (on_page p a) as [[|]|e] eqn:Ha; cbn [bind]; [| |discriminate].
    + destruct (comprehension (on_page p) Val l) as [xs|e]; cbn [bind];
        [|discriminate].
      intros [= <-]. cbn [comprehension]. rewrite Ha. cbn [bind].
      rewrite (IH xs eq_refl). reflexivity.
    + intros H. rewrite (IH l' H). reflexivity.
Qed.

Lemma of_page_Exc {B} p (elt : Dict -> Res B) l e :
  of_page p l = Exc e -> exists e', comprehension (on_page p) elt l = Exc e'.
Proof.
  unfold of_page. induction l as [|a l IH]; cbn [comprehension];
    [discriminate|].
  destruct (on_page p a) as [[|]|e'] eqn:Ha; cbn [bind].
  - destruct (comprehension (on_page p) Val l) as [xs|e'']; cbn [bind];
      [discriminate|].
    intros H. destruct (IH H) as [e' He'].
    destruct (elt a); cbn [bind]; [|eexists; reflexivity].
    rewrite He'. eexists; reflexivity.
  - exact IH.
  - intros _. eexists; reflexivity.
Qed.

(** X19. Selecting the tables and the images of the page before the
    call, as the Streamlit front end does, changes nothing: the page's
    JSON is the one built from the whole lists; and when a selection
    raises, the call on the whole lists raises too. *)
Theorem X19_selecting_the_page_first_changes_nothing
  (i : Z) (text : string) (tables images : list Dict)
  (equations_text : list Value) (equations_img : option (list Value)) :
  (forall page_tables page_images,
     of_page i tables = Val page_tables ->
     of_page i images = Val page_images ->
     build_page_json i text page_tables page_images equations_text
                     equations_img
     = build_page_json i text tables images equations_text equations_img) /\
  (forall e,
     of_page i tables = Exc e \/ of_page i images = Exc e ->
     exists e', build_page_json i text tables images equations_text
                                equations_img = Exc e').
Proof.
  unfold build_page_json. split.
  - intros pt pim Ht Him.
    rewrite (comprehension_of_page i table_record _ _ Ht).
    rewrite (comprehension_of_page i (image_record equations_img) _ _ Him).
    reflexivity.
  - intros e [H|H].
    + destruct (of_page_Exc i table_record _ _ H) as [e' ->].
      eexists; reflexivity.
    + destruct (of_page_Exc i (image_record equations_img) _ _ H) as [e' ->].
      destruct (comprehension (on_page i) table_record tables); cbn [bind];
        eexists; reflexivity.
Qed.

Lemma comprehension_Forall {A B} (cond : A -> Res bool) (elt : A -> Res B)
  (P : B -> Prop) l xs :
  (forall a x, elt a = Val x -> P x) ->
  comprehension cond elt l = Val xs ->
  Forall P xs /\ (List.length xs <= List.length l)%nat.
Proof.
  intros HP. revert xs. induction l as [|a l IH]; intros xs;
    cbn [comprehension].
  - intros [= <-]. split; [constructor | reflexivity].
  - destruct (cond a) as [[|]|e]; cbn [bind]; [| |discriminate].
    + destruct (elt a) as [x|e] eqn:Hx; cbn [bind]; [|discriminate].
      destruct (comprehension cond elt l) as [xs'|e]; cbn [bind];
        [|discriminate].
      intros [= <-]. destruct (IH xs' eq_refl) as [H1 H2].
      split; [constructor; [eapply HP, Hx | exact H1] | cbn; lia].
    + intros H. destruct (IH xs H) as [H1 H2]. split; [exact H1 | cbn; lia].
Qed.

(** X20. The shape of a page's JSON.  A table record has the keys
    [table_index] and [data] and nothing else, an image record has the
    keys [bbox] and [equations_in_image] and nothing else; in
    particular no image record has a key [equations].  Every image
    record of the page holds the same list: the [equations_img] passed
    for the page, or the empty list when that is [None] or empty. *)
Theorem X20_shape_of_the_page_json
  (page_num : Z) (text : string) (tables images : list Dict)
  (equations_text : list Value) (equations_img : option (list Value)) v :
  build_page_json page_num text tables images equations_text equations_img
  = Val v ->
  exists ts ims,
    v = VDict [("page"%string, VInt page_num); ("text"%string, VStr text);
               ("tables"%string, VList ts); ("images"%string, VList ims);
               ("equations"%string, VList equations_text)] /\
    (List.length ts <= List.length tables)%nat /\
    (List.length ims <= List.length images)%nat /\
    Forall (fun r => exists i d,
              r = VDict [("table_index"%string, i); ("data"%string, d)]) ts /\
    Forall (fun r => exists b,
              r = VDict [("bbox"%string, b);
                         ("equations_in_image"%string,
                          VList (match equations_img with
                                 | Some l => l
                                 | None => []
                                 end))] /\
              getitem [("bbox"%string, b);
                       ("equations_in_image"%string,
                        VList (or_empty equations_img))] "equations"
              = Exc (KeyError "equations")) ims.
Proof.
  unfold build_page_json. intros H.
  destruct (comprehension (on_page page_num) table_record tables)
    as [ts|e] eqn:Ht; cbn [bind] in H; [|discriminate].
  destruct (comprehension (on_page page_num) (image_record equations_img)
                          images) as [ims|e] eqn:Hi; cbn [bind] in H;
    [|discriminate].
  injection H as <-. exists ts, ims. split; [reflexivity|].
  eapply comprehension_Forall in Ht; [destruct Ht as [Ht1 Ht2]|].
  - eapply comprehension_Forall in Hi; [destruct Hi as [Hi1 Hi2]|].
    + repeat split; [exact Ht2 | exact Hi2 | exact Ht1 | exact Hi1].
    + intros d x. unfold image_record, getitem.
      destruct (get d "bbox") as [b|]; cbn [bind]; [|discriminate].
      intros [= <-]. exists b. split; [|reflexivity].
      destruct equations_img as [[|x l]|]; reflexivity.
  - intros d x. unfold table_record, getitem.
    destruct (get d "table_index") as [i|]; cbn [bind]; [|discriminate].
    destruct (get d "data") as [dd|]; cbn [bind]; [|discriminate].
    intros [= <-]. exists i, dd. reflexivity.
Qed.

(* ================================================================== *)
(** ** The further properties on concrete inputs *)

Import Scene Sample.

Lemma X1_witness : margin 60 c_0_03 = Ok 1 /\ margin 20 c_0_05 = Ok 1.
Proof.
  apply (X1_margins_are_integer_quotients 60 20); unfold c_int; lia.
Defined.

Lemma X2_witness :
  exists b,
    _is_equation_like (speck reads_nothing) (100, 20, 5, 5) (100, 200) = Ok b /\
    (b = true <->
     400 <= 5 * 5 /\ ~ (95 * 200 < 100 * 5 /\ 95 * 100 < 100 * 5) /\
     10 <= 5 /\ 10 <= 5).
Proof.
  apply (X2_filter_in_integers (speck reads_nothing) (100, 20, 5, 5)
                               100 20 5 5 200 100 eq_refl);
    unfold c_int; lia.
Defined.


Lemma X4_witness :
  exists fs' r,
    detect_equations_in_image (speck reads_nothing) speck_page
                              false "out" true [] = (fs', r) /\
    fs' = [] /\
    forall es, r = Ok es -> Forall (fun e => saved_path e = None) es.
Proof.
  eexists. eexists. split; [vm_compute; reflexivity|].
  eapply (X4_nothing_written_without_save_crops
            (speck reads_nothing) speck_page "out"%string true []).
  vm_compute; reflexivity.
Defined.

Lemma X5_witness :
  exists fs' es,
    detect_equations_in_image (speck reads_nothing) speck_page
                              true "out" false [] = (fs', Ok es) /\
    exists writes,
      fs' = [] ++ MakeDirs "out" :: writes /\
      Forall2 (fun ev e => exists p, ev = ImWrite p (crop e) /\
                                     saved_path e = Some p)
              writes es.
Proof.
  eexists. eexists. split; [vm_compute; reflexivity|].
  eapply (X5_one_file_per_region
            (speck reads_nothing) speck_page "out"%string false []).
  vm_compute; reflexivity.
Defined.

Lemma X6_witness :
  exists fs' r,
    detect_equations_in_image (speck reads_nothing) speck_page
                              true "out" false [] = (fs', r) /\
    exists evs, fs' = [] ++ evs /\ NoDup (written_paths evs).
Proof.
  eexists. eexists. split; [vm_compute; reflexivity|].
  eapply (X6_crop_files_are_distinct
            (speck reads_nothing) speck_page true "out"%string false []).
  vm_compute; reflexivity.
Defined.

(** The speck is contour number 1: the files are [eq_000.png] and
    [eq_002.png]. *)
Lemma X7_witness :
  accepted_indices (speck reads_nothing) speck_page = [0; 2]%nat /\
  exists fs' es,
    detect_equations_in_image (speck reads_nothing) speck_page
                              true "out" false [] = (fs', Ok es) /\
    map saved_path es =
      map (fun i => Some (crop_path "out" i))
          (accepted_indices (speck reads_nothing) speck_page) /\
    StronglySorted lt (accepted_indices (speck reads_nothing) speck_page).
Proof.
  split; [vm_compute; reflexivity|].
  eexists. eexists. split; [vm_compute; reflexivity|].
  eapply (X7_files_numbered_by_contour_position
            (speck reads_nothing) speck_page "out"%string false []).
  vm_compute; reflexivity.
Defined.

Lemma X8_witness :
  exists fs' es,
    detect_equations_in_image (speck reads_nothing) speck_page
                              true "out" false [] = (fs', Ok es) /\
    (List.length es <= List.length (raw_contours (speck reads_nothing)
                                                 speck_page))%nat /\
    (raw_contours (speck reads_nothing) speck_page = [] ->
     es = [] /\ fs' = [] ++ [MakeDirs "out"]).
Proof.
  eexists. eexists. split; [vm_compute; reflexivity|].
  eapply (X8_at_most_one_region_per_contour
            (speck reads_nothing) speck_page true "out"%string false []).
  vm_compute; reflexivity.
Defined.







(** What the command line prints for the page with the speck. *)
Example command_line_output :
  snd (fst (Cli.main (speck (reads "x = 1")) ["detector"; "page.png"]%string
                     [] []))
  = ["Found 2 candidate equation regions";
     "0 (19, 19, 62, 22) -> x = 1";
     "1 (19, 59, 62, 22) -> x = 1"]%string.
Proof. vm_compute. reflexivity. Qed.

Lemma X15_witness :
  exists ts,
    extract_tables Sample.lib "report.pdf" (Some 1) = Val ts /\
    Forall (fun t => exists p i d df, t = table_entry p i d df) ts /\
    forall p i d,
      (exists df, In (table_entry p i d df) ts) <->
      (table_at [first_page; second_page] p i = Some d /\
       forall n, Some 1 = Some n -> p <= n).
Proof.
  eexists. split; [vm_compute; reflexivity|].
  apply (X15_tables_numbered_by_page_and_position
           Sample.lib "report.pdf"%string (Some 1) [first_page; second_page]).
  - reflexivity.
  - intros n [= <-]. lia.
  - vm_compute; reflexivity.
Defined.

Lemma X16_witness :
  (exists df,
     as_dataframe Sample.lib totals = Val df /\
     extract_single_table Sample.lib "report.pdf" 1 1
     = Val (table_entry 1 1 totals df)) /\
  extract_single_table Sample.lib "report.pdf" 2 (-1)
  = Exc (ValueError "No table found at page 2, table -1").
Proof.
  split.
  - eapply (X16_single_table_is_the_table_asked_for
              Sample.lib "report.pdf"%string 1 1 [first_page; second_page]);
      vm_compute; reflexivity.
  - eapply (X16_single_table_is_the_table_asked_for
              Sample.lib "report.pdf"%string 2 (-1) [first_page; second_page]);
      vm_compute; reflexivity.
Defined.

Lemma X17_witness :
  exists ts ims recs,
    extract_tables Sample.lib "report.pdf" None = Val ts /\
    extract_images Sample.lib "report.pdf" = Val ims /\
    build_page_json 1 "Prices" ts ims [] None
    = Val (VDict [("page"%string, VInt 1);
                  ("text"%string, VStr "Prices");
                  ("tables"%string,
                   VList (table_records [first_page; second_page] 1));
                  ("images"%string, VList recs);
                  ("equations"%string, VList [])]) /\
    Forall2 (image_record_of None) (images_at [first_page; second_page] 1)
            recs.
Proof.
  eexists. eexists.
  assert (Ht : extract_tables Sample.lib "report.pdf" None = Val _)
    by (vm_compute; reflexivity).
  assert (Hi : extract_images Sample.lib "report.pdf" = Val _)
    by (vm_compute; reflexivity).
  destruct (X17_page_json_of_a_document
              Sample.lib "report.pdf"%string [first_page; second_page] _ _
              1 "Prices"%string [] None eq_refl Ht Hi) as (recs & Hb & Hs).
  exists recs. split; [exact Ht|]. split; [exact Hi|]. split; [exact Hb | exact Hs].
Defined.

(** A table of page 2 that has nothing but its page is in the way on
    page 2 only; a raw image of the PDF has no page at all. *)
Example missing_keys :
  build_page_json 2 "Notes" [Sample.bare] [] [] None
  = Exc (KeyError "table_index") /\
  build_page_json 1 "Prices" [Sample.bare] [Sample.figure] [] None
  = Exc (KeyError "page") /\
  build_page_json 1 "Prices" [Sample.bare] [] [] None
  = Val (VDict [("page"%string, VInt 1); ("text"%string, VStr "Prices");
                ("tables"%string, VList []); ("images"%string, VList []);
                ("equations"%string, VList [])]).
Proof. repeat split. Qed.

Lemma X19_witness :
  exists ts ims,
    extract_tables Sample.lib "report.pdf" None = Val ts /\
    extract_images Sample.lib "report.pdf" = Val ims /\
    (forall page_tables page_images,
       of_page 2 ts = Val page_tables ->
       of_page 2 ims = Val page_images ->
       build_page_json 2 "Notes" page_tables page_images [] None
       = build_page_json 2 "Notes" ts ims [] None) /\
    exists e', build_page_json 2 "Notes" ts [Sample.figure] [] None = Exc e'.
Proof.
  eexists. eexists. split; [vm_compute; reflexivity|].
  split; [vm_compute; reflexivity|]. split.
  - apply (proj1 (X19_selecting_the_page_first_changes_nothing
                    2 "Notes"%string _ _ [] None)).
  - apply (proj2 (X19_selecting_the_page_first_changes_nothing
                    2 "Notes"%string _ [Sample.figure] [] None)
                 (KeyError "page")).
    right. reflexivity.
Defined.

Lemma X20_witness :
  exists ts ims,
    build_page_json 1 "Prices"
                    [table_entry 1 0 Sample.prices Sample.prices]
                    [image_entry Sample.lib 1 VNone VNone] [] (Some [])
    = Val (VDict [("page"%string, VInt 1); ("text"%string, VStr "Prices");
                  ("tables"%string, VList ts); ("images"%string, VList ims);
                  ("equations"%string, VList [])]) /\
    (List.length ts <= 1)%nat /\ (List.length ims <= 1)%nat /\
    Forall (fun r => exists i d,
              r = VDict [("table_index"%string, i); ("data"%string, d)]) ts /\
    Forall (fun r => exists b,
              r = VDict [("bbox"%string, b);
                         ("equations_in_image"%string, VList [])] /\
              getitem [("bbox"%string, b);
                       ("equations_in_image"%string, VList [])] "equations"
              = Exc (KeyError "equations")) ims.
Proof.
  destruct (X20_shape_of_the_page_json
              1 "Prices"%string
              [table_entry 1 0 Sample.prices Sample.prices]
              [image_entry Sample.lib 1 VNone VNone] [] (Some []) _ eq_refl)
    as (ts & ims & Hv & Ht & Hi & Hts & Hims).
  exists ts, ims. split; [rewrite <- Hv; reflexivity|].
  split; [exact Ht|]. split; [exact Hi|]. split; [exact Hts | exact Hims].
Defined.

(* ================================================================== *)
(** ** The names of the raw images *)












